(** * HDB resale price notebook: feature pipeline and single-flat predictor

    A shallow embedding of the transformation code of [HDB.ipynb]: the
    parsing of the [month] and [remaining_lease] columns, the ordinal and
    one-hot encoders as the notebook configures them, the in-place column
    surgery on the pandas frame, and the column alignment done before the
    fitted model is asked for the price of one flat.

    Python values are modelled as follows.
    - [str]: a [string] whose characters stand for code points below 256.
    - [int]: [Z] (Python integers are unbounded).
    - exceptions: the [result] type, with the built-in exception classes the
      code can raise as [exn].
    - a pandas frame: the ordered list of its named columns.
    The least-squares fit and the shuffling of [train_test_split] work on
    floating point numbers and on the state of the global random generator;
    they are outside this development. *)

From Stdlib Require Import List String Ascii ZArith NArith QArith Bool Lia.
From Stdlib Require Import Permutation Sorted DecimalString OrdersEx.
Import ListNotations.

Open Scope string_scope.
Open Scope list_scope.
Open Scope Z_scope.

(** ** Exceptions *)

Inductive exn : Set :=
| AssertionError
| AttributeError
| IndexError
| KeyError
| ValueError
| OutOfBoundsDatetime.

Inductive result (A : Type) : Type :=
| Ok (a : A)
| Raise (e : exn).

Arguments Ok {A} a.
Arguments Raise {A} e.

Definition bind {A B : Type} (m : result A) (k : A -> result B) : result B :=
  match m with
  | Ok a => k a
  | Raise e => Raise e
  end.

Notation "x <- m ;; k" := (bind m (fun x => k))
  (at level 61, m at next level, right associativity).
Notation "m ;;; k" := (bind m (fun _ => k))
  (at level 61, right associativity).

(** [Series.apply(f)] and every other row-by-row loop: the first row that
    raises aborts the whole statement. *)
Fixpoint mapM {A B : Type} (f : A -> result B) (l : list A) : result (list B) :=
  match l with
  | [] => Ok []
  | a :: l' => b <- f a ;; bs <- mapM f l' ;; Ok (b :: bs)
  end.

Definition failed {A : Type} (m : result A) : Prop := exists e, m = Raise e.

(** ** Python built-ins used by the notebook *)

Module Py.

(** [str.isspace] on one character (code points below 256). *)
Definition isspace (c : ascii) : bool :=
  let n := N_of_ascii c in
  (((9 <=? n) && (n <=? 13)) || ((28 <=? n) && (n <=? 32))
   || (n =? 133) || (n =? 160))%N.

(** The pieces of [s] between the characters satisfying [p]; empty pieces
    are kept, so a string with [n] separators has [n + 1] pieces. *)
Fixpoint fields (p : ascii -> bool) (s : string) : list string :=
  match s with
  | EmptyString => [EmptyString]
  | String c r =>
      if p c then EmptyString :: fields p r
      else match fields p r with
           | f :: fs => String c f :: fs
           | [] => [String c EmptyString]
           end
  end.

Definition nonempty (s : string) : bool :=
  match s with EmptyString => false | String _ _ => true end.

(** [s.split()]: runs of whitespace separate, no empty token. *)
Definition split (s : string) : list string :=
  filter nonempty (fields isspace s).

(** [s.split(sep)] for a one-character separator. *)
Definition split_sep (sep : ascii) (s : string) : list string :=
  fields (Ascii.eqb sep) s.

(** [l[i]] with Python's negative indices. *)
Definition getitem {A : Type} (l : list A) (i : Z) : result A :=
  let n := Z.of_nat (List.length l) in
  let j := if i <? 0 then n + i else i in
  if (j <? 0) || (n <=? j) then Raise IndexError
  else match nth_error l (Z.to_nat j) with
       | Some a => Ok a
       | None => Raise IndexError
       end.

Fixpoint lstrip (s : string) : string :=
  match s with
  | EmptyString => EmptyString
  | String c r => if isspace c then lstrip r else s
  end.

Fixpoint rstrip (s : string) : string :=
  match s with
  | EmptyString => EmptyString
  | String c r =>
      match rstrip r with
      | EmptyString => if isspace c then EmptyString else String c EmptyString
      | r' => String c r'
      end
  end.

Definition strip (s : string) : string := lstrip (rstrip s).

Definition digit_val (c : ascii) : option Z :=
  let n := N_of_ascii c in
  if ((48 <=? n) && (n <=? 57))%N then Some (Z.of_N n - 48) else None.

(** The digit part of an integer literal: decimal digits, with single
    underscores allowed between two digits. [prev] tells whether the
    character just read was a digit. *)
Fixpoint digits (acc : Z) (prev : bool) (s : string) : option Z :=
  match s with
  | EmptyString => if prev then Some acc else None
  | String c r =>
      match digit_val c with
      | Some d => digits (10 * acc + d) true r
      | None =>
          if (Ascii.eqb c "_") && prev then digits acc false r else None
      end
  end.

(** [int(s)] in base 10. *)
Definition int (s : string) : result Z :=
  let body :=
    match strip s with
    | String "+" r => digits 0 false r
    | String "-" r => option_map Z.opp (digits 0 false r)
    | t => digits 0 false t
    end in
  match body with
  | Some z => Ok z
  | None => Raise ValueError
  end.

End Py.

(** ** Parsing of the date and lease columns *)

Module Parser.

(** [lambda x: int(x.split()[0])] *)
Definition years_remaining (x : string) : result Z :=
  t <- Py.getitem (Py.split x) 0 ;; Py.int t.

(** [lambda x: int(x.split(" ")[-2])] *)
Definition months_remaining (x : string) : result Z :=
  t <- Py.getitem (Py.split_sep " " x) (-2) ;; Py.int t.

(** Both lease columns of one row, in the order the notebook fills them. *)
Definition remaining_lease (x : string) : result (Z * Z) :=
  y <- years_remaining x ;; m <- months_remaining x ;; Ok (y, m).

(** Prediction path: [lambda x: int(x.split("-")[0])] *)
Definition sale_year (x : string) : result Z :=
  t <- Py.getitem (Py.split_sep "-" x) 0 ;; Py.int t.

(** Prediction path: [lambda x: int(x.split("-")[-1])] *)
Definition sale_month (x : string) : result Z :=
  t <- Py.getitem (Py.split_sep "-" x) (-1) ;; Py.int t.

End Parser.

(** ** Training path: [pd.to_datetime(df['month'], format="%Y-%m")]

    The reader below covers the texts a month column holds: a year of four
    digits, a hyphen and a month of one or two digits, which pandas reads as
    the first day of that month, and the texts that stand for a missing
    timestamp. Every other text is refused here; pandas itself goes on to
    read a day and a time of day after the month, so the texts this reader
    takes are among those pandas takes, with the same year and month. *)

Module Datetime.

(** The words pandas reads as a missing timestamp. *)
Definition nat_strings : list string :=
  ["NaT"; "nat"; "NAT"; "nan"; "NaN"; "NAN"].

Definition mem (x : string) (l : list string) : bool :=
  existsb (String.eqb x) l.

(** A missing timestamp: the empty text or one of the words, compared as the
    text stands (surrounding blanks are not removed). *)
Definition missing (s : string) : bool :=
  String.eqb s "" || mem s nat_strings.

(** The year: exactly four digits. *)
Definition directive_Y (a b c d : ascii) : option Z :=
  match Py.digit_val a, Py.digit_val b, Py.digit_val c, Py.digit_val d with
  | Some x3, Some x2, Some x1, Some x0 =>
      Some (1000 * x3 + 100 * x2 + 10 * x1 + x0)
  | _, _, _, _ => None
  end.

(** The month, to the end of the text: [1[0-2]|0[1-9]|[1-9]]. *)
Definition directive_m (s : string) : option Z :=
  match s with
  | String a (String b EmptyString) =>
      match Py.digit_val a, Py.digit_val b with
      | Some 1, Some d => if d <=? 2 then Some (10 + d) else None
      | Some 0, Some d => if 1 <=? d then Some d else None
      | _, _ => None
      end
  | String a EmptyString =>
      match Py.digit_val a with
      | Some d => if 1 <=? d then Some d else None
      | None => None
      end
  | _ => None
  end.

(** Year, hyphen, month, and nothing after. *)
Definition strptime (s : string) : option (Z * Z) :=
  match s with
  | String a (String b (String c (String d (String "-" r)))) =>
      match directive_Y a b c d, directive_m r with
      | Some y, Some m => Some (y, m)
      | _, _ => None
      end
  | _ => None
  end.

(** First days of a month that a nanosecond timestamp can hold:
    1677-10-01 to 2262-04-01. *)
Definition in_bounds (y m : Z) : bool :=
  (1677 * 12 + 10 <=? y * 12 + m) && (y * 12 + m <=? 2262 * 12 + 4).

(** One element of the column; [None] is [NaT]. *)
Definition to_datetime (s : string) : result (option (Z * Z)) :=
  if missing s then Ok None
  else match strptime s with
       | None => Raise ValueError
       | Some (y, m) =>
           if in_bounds y m then Ok (Some (y, m))
           else Raise OutOfBoundsDatetime
       end.

End Datetime.

(** ** Frames *)

Inductive cell : Type :=
| NaN
| NaT
| Str (s : string)
| Int (z : Z)
| Flt (q : Q)
| Timestamp (year month : Z).

Definition Frame : Type := list (string * list cell).

Module Pd.

Definition columns (df : Frame) : list string := map fst df.

Definition has (df : Frame) (name : string) : bool :=
  existsb (String.eqb name) (columns df).

(** [df[name]] *)
Fixpoint getcol (df : Frame) (name : string) : result (list cell) :=
  match df with
  | [] => Raise KeyError
  | (n, v) :: df' => if String.eqb n name then Ok v else getcol df' name
  end.

(** [df[name] = v]: an existing column is overwritten where it stands, a new
    one goes last. *)
Fixpoint setcol (df : Frame) (name : string) (v : list cell) : Frame :=
  match df with
  | [] => [(name, v)]
  | (n, w) :: df' =>
      if String.eqb n name then (n, v) :: df'
      else (n, w) :: setcol df' name v
  end.

(** [df.drop(names, axis=1)]: every label has to be present. *)
Definition drop (df : Frame) (names : list string) : result Frame :=
  if forallb (has df) names
  then Ok (filter (fun c => negb (existsb (String.eqb (fst c)) names)) df)
  else Raise KeyError.

(** [df.join(other)] on frames with the same index: no common label. *)
Definition join (df other : Frame) : result Frame :=
  if existsb (has df) (columns other) then Raise ValueError
  else Ok (df ++ other).

(** [df[names]]: for each label in turn, the columns carrying it. *)
Definition select (df : Frame) (names : list string) : result Frame :=
  cs <- mapM (fun name =>
                match filter (fun c => String.eqb (fst c) name) df with
                | [] => Raise KeyError
                | found => Ok found
                end) names ;;
  Ok (List.concat cs).

Definition isna (c : cell) : bool :=
  match c with NaN | NaT => true | _ => false end.

(** [df.isna().sum()] *)
Definition isna_sum (df : Frame) : list (string * nat) :=
  map (fun c => (fst c, List.length (filter isna (snd c)))) df.

(** Rows of a table given by columns, and columns of a table given by rows:
    [n] is the length of the lists of the argument. *)
Fixpoint zip_cons {A : Type} (xs : list A) (ls : list (list A)) : list (list A) :=
  match xs, ls with
  | x :: xs', l :: ls' => (x :: l) :: zip_cons xs' ls'
  | _, _ => []
  end.

Definition transpose {A : Type} (n : nat) (t : list (list A)) : list (list A) :=
  fold_right zip_cons (repeat [] n) t.

End Pd.

(** ** The lambdas on a cell

    [Series.apply] hands each cell of the column to the lambda. The four
    lambdas call [x.split], a method of [str]: on a cell that is not a text
    (a number, a missing value, a timestamp) the call raises
    [AttributeError]; on a text they are the functions of [Parser]. *)

Module Cell.

Definition str_method {A : Type} (f : string -> result A) (x : cell)
  : result A :=
  match x with
  | Str s => f s
  | NaN | NaT | Int _ | Flt _ | Timestamp _ _ => Raise AttributeError
  end.

Definition years_remaining (x : cell) : result Z :=
  str_method Parser.years_remaining x.

Definition months_remaining (x : cell) : result Z :=
  str_method Parser.months_remaining x.

(** Both lease columns of one cell, in the order the two statements run. *)
Definition remaining_lease (x : cell) : result (Z * Z) :=
  y <- years_remaining x ;; m <- months_remaining x ;; Ok (y, m).

Definition sale_year (x : cell) : result Z :=
  str_method Parser.sale_year x.

Definition sale_month (x : cell) : result Z :=
  str_method Parser.sale_month x.

Definition is_str (x : cell) : bool :=
  match x with Str _ => true | _ => false end.

End Cell.

(** ** The scikit-learn encoders, as the notebook configures them

    Both encoders are built with the default [handle_unknown='error']. *)

Module Sk.

Fixpoint index_of (x : string) (l : list string) : option nat :=
  match l with
  | [] => None
  | y :: l' => if String.eqb y x then Some 0%nat
               else option_map S (index_of x l')
  end.

(** Input validation: an encoder refuses a table without rows. *)
Definition check_array {A : Type} (X : list A) : result unit :=
  match X with
  | [] => Raise ValueError
  | _ :: _ => Ok tt
  end.

(** *** [OrdinalEncoder(categories=[cats], dtype=int)], one feature *)

Record OrdinalEncoder : Type := { oe_categories_ : list string }.

Definition oe_encode (cats : list string) (x : string) : result Z :=
  match index_of x cats with
  | Some i => Ok (Z.of_nat i)
  | None => Raise ValueError
  end.

(** With the categories given, fitting only checks the data against them. *)
Definition oe_fit (cats : list string) (X : list string) : result OrdinalEncoder :=
  check_array X ;;;
  mapM (oe_encode cats) X ;;;
  Ok {| oe_categories_ := cats |}.

Definition oe_transform (enc : OrdinalEncoder) (X : list string) : result (list Z) :=
  check_array X ;;;
  mapM (oe_encode (oe_categories_ enc)) X.

Definition oe_fit_transform (cats : list string) (X : list string)
  : result (OrdinalEncoder * list Z) :=
  enc <- oe_fit cats X ;;
  codes <- oe_transform enc X ;;
  Ok (enc, codes).

(** *** [OneHotEncoder(dtype=int)]

    The table comes as the list of its columns; the dense array goes out
    as the list of its rows. *)

Record OneHotEncoder : Type := { categories_ : list (list string) }.

Fixpoint insert (x : string) (l : list string) : list string :=
  match l with
  | [] => [x]
  | y :: l' =>
      match String.compare x y with
      | Eq => l
      | Lt => x :: l
      | Gt => y :: insert x l'
      end
  end.

(** The distinct values of a column, sorted. *)
Definition unique (col : list string) : list string :=
  fold_right insert [] col.

Definition ohe_fit (X : list (list string)) : result OneHotEncoder :=
  mapM check_array X ;;;
  Ok {| categories_ := map unique X |}.

Definition onehot (cats : list string) (x : string) : list Z :=
  map (fun c => if String.eqb c x then 1 else 0) cats.

Definition encode_value (cats : list string) (x : string) : result (list Z) :=
  match index_of x cats with
  | Some _ => Ok (onehot cats x)
  | None => Raise ValueError
  end.

(** The indicator blocks of one row, one block per feature. *)
Fixpoint encode_blocks (cats : list (list string)) (row : list string)
  : result (list (list Z)) :=
  match cats, row with
  | [], [] => Ok []
  | c :: cats', x :: row' =>
      b <- encode_value c x ;;
      bs <- encode_blocks cats' row' ;;
      Ok (b :: bs)
  | _, _ => Raise ValueError
  end.

Definition encode_row (cats : list (list string)) (row : list string)
  : result (list Z) :=
  bs <- encode_blocks cats row ;; Ok (List.concat bs).

Definition ohe_transform (enc : OneHotEncoder) (X : list (list string))
  : result (list (list Z)) :=
  mapM check_array X ;;;
  mapM (encode_row (categories_ enc))
       (Pd.transpose (List.length (hd [] X)) X).

Definition ohe_fit_transform (X : list (list string))
  : result (OneHotEncoder * list (list Z)) :=
  enc <- ohe_fit X ;;
  rows <- ohe_transform enc X ;;
  Ok (enc, rows).

Definition str_of_nat (n : nat) : string :=
  NilEmpty.string_of_uint (Nat.to_uint n).

Definition feature_name (i : nat) (c : string) : string :=
  ("x" ++ str_of_nat i ++ "_" ++ c)%string.

(** [ohe.get_feature_names()] without input names: [x0_...], [x1_...]. *)
Fixpoint feature_names_from (i : nat) (cats : list (list string)) : list string :=
  match cats with
  | [] => []
  | c :: cats' => map (feature_name i) c ++ feature_names_from (S i) cats'
  end.

Definition get_feature_names (enc : OneHotEncoder) : list string :=
  feature_names_from 0 (categories_ enc).

End Sk.

(** [pd.DataFrame(array, columns=names)] for an array given by its rows. *)
Definition DataFrame (rows : list (list Z)) (names : list string) : Frame :=
  combine names
          (Pd.transpose (List.length names) (map (map Int) rows)).

(** ** The notebook

    One row of the resale CSV, as [read_csv] hands it over. In the six
    columns that the notebook parses or encodes a record holds a text: the
    frames covered are those in which [read_csv] typed these columns as
    text, as it does for the resale file (months such as [2017-01], towns,
    flat types, storey ranges, flat models, leases such as
    [61 years 04 months]). A column that [read_csv] types as numbers, and an
    empty field, which it reads as [NaN], are outside these records; what
    the lambdas do on such a cell is in [Cell]. The columns the notebook
    only carries along or drops hold any cell, a missing one ([NaN])
    included. *)

Record TransactionRecord : Type := {
  month : string;
  town : string;
  flat_type : string;
  block : cell;
  street_name : cell;
  storey_range : string;
  floor_area_sqm : cell;
  flat_model : string;
  lease_commence_date : cell;
  remaining_lease : string;
  resale_price : cell
}.

Definition text (f : TransactionRecord -> string) (rows : list TransactionRecord)
  : list cell := map (fun r => Str (f r)) rows.

(** The columns of the frame without the price, in the order of the file. *)
Definition flat_columns (rows : list TransactionRecord) : Frame :=
  [ ("month", text month rows);
    ("town", text town rows);
    ("flat_type", text flat_type rows);
    ("block", map block rows);
    ("street_name", map street_name rows);
    ("storey_range", text storey_range rows);
    ("floor_area_sqm", map floor_area_sqm rows);
    ("flat_model", text flat_model rows);
    ("lease_commence_date", map lease_commence_date rows);
    ("remaining_lease", text remaining_lease rows) ].

(** [pd.read_csv] of the corpus, for a file whose six parsed columns are
    read as text. *)
Definition read_csv (rows : list TransactionRecord) : Frame :=
  flat_columns rows ++ [("resale_price", map resale_price rows)].

(** [pd.read_csv("data/myflat.csv", header=0)]: the flat to be priced, a row
    of the same file without its price, its six parsed columns read as
    text. *)
Definition read_myflat (r : TransactionRecord) : Frame := flat_columns [r].

Definition storey_cat : list string :=
  ["01 TO 03"; "04 TO 06"; "07 TO 09"; "10 TO 12"; "13 TO 15"; "16 TO 18";
   "19 TO 21"; "22 TO 24"; "25 TO 27"; "28 TO 30"; "31 TO 33"; "34 TO 36";
   "37 TO 39"; "40 TO 42"; "43 TO 45"; "46 TO 48"; "49 TO 51"].

Definition ohe_features : list (TransactionRecord -> string) :=
  [town; flat_type; flat_model].

(** [df[ohe_features]], by columns. *)
Definition ohe_input (rows : list TransactionRecord) : list (list string) :=
  map (fun f => map f rows) ohe_features.

Definition dt_year (d : option (Z * Z)) : cell :=
  match d with Some (y, _) => Int y | None => NaN end.

Definition dt_month (d : option (Z * Z)) : cell :=
  match d with Some (_, m) => Int m | None => NaN end.

Definition dt_cell (d : option (Z * Z)) : cell :=
  match d with Some (y, m) => Timestamp y m | None => NaT end.

(** The names the notebook binds while it trains: the frame [df] it rewrites
    in place, the two fitted encoders, the output of [df.isna().sum()], and
    the two arguments of [train_test_split]: the features [X] and the label
    [y]. *)
Record Notebook : Type := {
  df : Frame;
  oe : Sk.OrdinalEncoder;
  ohe : Sk.OneHotEncoder;
  isna_shown : list (string * nat);
  X : Frame;
  y : list cell
}.

(** [X_train.columns]: [train_test_split] deals out the rows of [X] and
    keeps its columns. *)
Definition X_train_columns (nb : Notebook) : list string := Pd.columns (X nb).

(** The training cells. Each takes the frame [df] as the previous cell left
    it, and the rows of the file: the text it parses or encodes, [df['month']]
    say, is the field [month] of the rows, which [read_csv] put in the frame
    and no earlier cell has touched. *)
Module Train.

(** [sale_date], [sale_year], [sale_month]; then the two date columns go. *)
Definition dates (rows : list TransactionRecord) (df : Frame) : result Frame :=
  sale_date <- mapM Datetime.to_datetime (map month rows) ;;
  let df := Pd.setcol df "sale_date" (map dt_cell sale_date) in
  let df := Pd.setcol df "sale_year" (map dt_year sale_date) in
  let df := Pd.setcol df "sale_month" (map dt_month sale_date) in
  Pd.drop df ["sale_date"; "month"].

Definition lease (rows : list TransactionRecord) (df : Frame) : result Frame :=
  years <- mapM Parser.years_remaining (map remaining_lease rows) ;;
  let df := Pd.setcol df "years_remaining" (map Int years) in
  months <- mapM Parser.months_remaining (map remaining_lease rows) ;;
  let df := Pd.setcol df "months_remaining" (map Int months) in
  Pd.drop df ["remaining_lease"; "lease_commence_date"].

Definition storey (rows : list TransactionRecord) (df : Frame)
  : result (Sk.OrdinalEncoder * Frame) :=
  fitted <- Sk.oe_fit_transform storey_cat (map storey_range rows) ;;
  let '(oe, codes) := fitted in
  Ok (oe, Pd.setcol df "storey" (map Int codes)).

Definition onehot (rows : list TransactionRecord) (df : Frame)
  : result (Sk.OneHotEncoder * Frame) :=
  fitted <- Sk.ohe_fit_transform (ohe_input rows) ;;
  let '(ohe, flat_type_encoding) := fitted in
  let flat_type_encoding_df :=
    DataFrame flat_type_encoding (Sk.get_feature_names ohe) in
  df <- Pd.join df flat_type_encoding_df ;;
  Ok (ohe, df).

Definition dropped : list string :=
  ["town"; "flat_type"; "flat_model"; "storey_range"; "block"; "street_name"].

(** The cells of the notebook from [read_csv] to the arguments of
    [train_test_split]. *)
Definition run (rows : list TransactionRecord) : result Notebook :=
  let df := read_csv rows in
  df <- dates rows df ;;
  df <- lease rows df ;;
  p <- storey rows df ;;
  let '(oe, df) := p in
  p <- onehot rows df ;;
  let '(ohe, df) := p in
  let shown := Pd.isna_sum df in
  df <- Pd.drop df dropped ;;
  X <- Pd.drop df ["resale_price"] ;;
  y <- Pd.getcol df "resale_price" ;;
  Ok {| df := df; oe := oe; ohe := ohe; isna_shown := shown;
        X := X; y := y |}.

End Train.

Module Predict.

(** The cells that turn [myflat.csv] into the row of features. *)
Definition assemble (nb : Notebook) (r : TransactionRecord) : result Frame :=
  let myflat := read_myflat r in
  sale_year <- mapM Parser.sale_year [month r] ;;
  let myflat := Pd.setcol myflat "sale_year" (map Int sale_year) in
  sale_month <- mapM Parser.sale_month [month r] ;;
  let myflat := Pd.setcol myflat "sale_month" (map Int sale_month) in
  myflat <- Pd.drop myflat ["month"] ;;
  codes <- Sk.oe_transform (oe nb) [storey_range r] ;;
  let myflat := Pd.setcol myflat "storey" (map Int codes) in
  myflat_encoding <- Sk.ohe_transform (ohe nb) (ohe_input [r]) ;;
  let myflat_encoding_df :=
    DataFrame myflat_encoding (Sk.get_feature_names (ohe nb)) in
  myflat <- Pd.join myflat myflat_encoding_df ;;
  years <- mapM Parser.years_remaining [remaining_lease r] ;;
  let myflat := Pd.setcol myflat "years_remaining" (map Int years) in
  months <- mapM Parser.months_remaining [remaining_lease r] ;;
  let myflat := Pd.setcol myflat "months_remaining" (map Int months) in
  Pd.drop myflat (["remaining_lease"; "lease_commence_date"] ++ Train.dropped).

(** [assert len(df.columns) == len(myflat.columns) + 1], then
    [myflat[X_train.columns]]: the frame given to [lr.predict]. *)
Definition align (nb : Notebook) (myflat : Frame) : result Frame :=
  if Nat.eqb (List.length (Pd.columns (df nb)))
             (List.length (Pd.columns myflat) + 1)
  then Pd.select myflat (X_train_columns nb)
  else Raise AssertionError.

Definition model_input (nb : Notebook) (r : TransactionRecord) : result Frame :=
  myflat <- assemble nb r ;; align nb myflat.

End Predict.

(** ** Vocabulary of the statements *)

(** A block of [k] indicators with a single 1. *)
Definition exactly_one (k : nat) (b : list Z) : Prop :=
  List.length b = k /\
  count_occ Z.eq_dec b 1 = 1%nat /\
  count_occ Z.eq_dec b 0 = (k - 1)%nat.

(** Every value of the row is in the vocabulary of its feature. *)
Definition known (row : list string) (cats : list (list string)) : Prop :=
  Forall2 (fun x c => In x c) row cats.

Definition str_lt (a b : string) : Prop := String.compare a b = Lt.

(** The labels of the indicator columns all begin with [x]; no other label
    of the frame does. *)
Definition starts_x (s : string) : bool :=
  match s with String "x" _ => true | _ => false end.

Definition encoded_frame (q : Sk.OneHotEncoder * list (list Z)) : Frame :=
  DataFrame (snd q) (Sk.get_feature_names (fst q)).

Definition fixed_columns : list string :=
  ["floor_area_sqm"; "sale_year"; "sale_month"; "years_remaining";
   "months_remaining"; "storey"].

(** One label of [df[names]]. *)
Definition pick (fr : Frame) (name : string) : result Frame :=
  match filter (fun c => String.eqb (fst c) name) fr with
  | [] => Raise KeyError
  | found => Ok found
  end.

(** Decimal numerals: the text of a list of digits, and its value. *)
Definition digit_char (d : Z) : ascii := ascii_of_N (Z.to_N (48 + d)).

Definition numeral (ds : list Z) : string :=
  fold_right (fun d s => String (digit_char d) s) EmptyString ds.

Definition number (ds : list Z) : Z :=
  fold_left (fun acc d => 10 * acc + d) ds 0.

Definition is_digit (d : Z) : Prop := 0 <= d <= 9.

Fixpoint all_chars (q : ascii -> bool) (s : string) : bool :=
  match s with
  | EmptyString => true
  | String c r => q c && all_chars q r
  end.


(** The text ["YYYY-MM"] with the digits [a b c d] and [e f]. *)
Definition sale_month_text (a b c d e f : Z) : string :=
  (numeral [a; b; c; d] ++ "-" ++ numeral [e; f])%string.

(** A month text of the form [YYYY-MM]: four digits, a hyphen and two digits
    that name a month from 01 to 12. *)
Definition year_month_text (s : string) : Prop :=
  exists a b c d e f,
    is_digit a /\ is_digit b /\ is_digit c /\ is_digit d /\
    is_digit e /\ is_digit f /\ 1 <= 10 * e + f <= 12 /\
    s = sale_month_text a b c d e f.

(** Missing cells of a column, rows that differ only in the columns the
    notebook never reads, and rows with a missing cell. *)
Definition count_na (l : list cell) : nat := List.length (filter Pd.isna l).

Definition same_text (r r' : TransactionRecord) : Prop :=
  month r = month r' /\ town r = town r' /\ flat_type r = flat_type r' /\
  storey_range r = storey_range r' /\ flat_model r = flat_model r' /\
  remaining_lease r = remaining_lease r'.

Definition has_null (r : TransactionRecord) : bool :=
  Pd.isna (block r) || Pd.isna (street_name r) || Pd.isna (floor_area_sqm r)
  || Pd.isna (lease_commence_date r) || Pd.isna (resale_price r).

(** ** A small corpus

    Four sales over two towns, two flat types, two flat models and three
    storey ranges, and flats to be priced. *)

Module Examples.

Definition flat (mo tw ft sr fm rl : string) (area price : Z) (blk : cell)
  : TransactionRecord :=
  {| month := mo; town := tw; flat_type := ft; block := blk;
     street_name := Str "AVE 1"; storey_range := sr;
     floor_area_sqm := Flt (inject_Z area); flat_model := fm;
     lease_commence_date := Int 1988; remaining_lease := rl;
     resale_price := Flt (inject_Z price) |}.

Definition corpus : list TransactionRecord :=
  [ flat "2017-01" "YISHUN" "4 ROOM" "01 TO 03" "Model A"
         "70 years 04 months" 93 350000 (Str "406");
    flat "2018-11" "ANG MO KIO" "3 ROOM" "10 TO 12" "Improved"
         "61 years 06 months" 67 250000 NaN;
    flat "2019-06" "YISHUN" "3 ROOM" "04 TO 06" "Improved"
         "65 years 11 months" 68 280000 (Str "10A");
    flat "2020-12" "ANG MO KIO" "4 ROOM" "10 TO 12" "Model A"
         "58 years 00 months" 92 420000 (Str "215") ].

Definition myflat : TransactionRecord :=
  flat "2022-07" "YISHUN" "4 ROOM" "01 TO 03" "Improved"
       "64 years 02 months" 90 0 (Str "777").

Definition fitted : Notebook :=
  match Train.run corpus with
  | Ok nb => nb
  | Raise _ =>
      {| df := []; oe := {| Sk.oe_categories_ := [] |};
         ohe := {| Sk.categories_ := [] |}; isna_shown := [];
         X := []; y := [] |}
  end.

Definition assembled : Frame :=
  match Predict.assemble fitted myflat with
  | Ok fr => fr
  | Raise _ => []
  end.

(** The same frame with one label misspelt. *)
Definition renamed : Frame :=
  match assembled with
  | (_, v) :: fr => ("floor_area", v) :: fr
  | [] => []
  end.

Definition unseen_model : TransactionRecord :=
  flat "2022-07" "YISHUN" "4 ROOM" "01 TO 03" "DBSS"
       "64 years 02 months" 90 0 (Str "777").

Definition unseen_storey : TransactionRecord :=
  flat "2022-07" "YISHUN" "4 ROOM" "52 TO 54" "Improved"
       "64 years 02 months" 90 0 (Str "777").

Definition null_out (r : TransactionRecord) : TransactionRecord :=
  {| month := month r; town := town r; flat_type := flat_type r;
     block := NaN; street_name := NaN; storey_range := storey_range r;
     floor_area_sqm := NaN; flat_model := flat_model r;
     lease_commence_date := NaN; remaining_lease := remaining_lease r;
     resale_price := NaN |}.

Definition nulled : list TransactionRecord := map null_out corpus.

Definition null_flat : TransactionRecord := null_out myflat.

End Examples.

(** ** Vocabulary of the further properties *)

(** A table is given by its columns, all of the same positive length. *)
Definition table (n : nat) (X : list (list string)) : Prop :=
  n <> 0%nat /\ X <> [] /\ Forall (fun c => List.length c = n) X.

(** Row [j] of a table given by its columns. *)
Definition row_of (T : list (list string)) (j : nat) : list string :=
  map (fun col => nth j col "") T.

(** The block of the value [v] for the vocabulary [c]: as long as [c], with a
    single 1, standing where [v] stands in [c], and 0 in every other place. *)
Definition block_of (c : list string) (v : string) (b : list Z) : Prop :=
  exactly_one (List.length c) b /\
  forall i, nth_error b i = Some 1 <-> nth_error c i = Some v.

(** Every value of the table is in the vocabulary of its column. *)
Definition in_vocabulary (T cats : list (list string)) : Prop :=
  Forall2 (fun col c => Forall (fun v => In v c) col) T cats.

(** A table of [n] rows encoded row for row: a row goes out for each row
    that came in, in order, made of one block per column for the value of
    the row in that column. *)
Definition encodes (cats T : list (list string)) (n : nat)
           (out : list (list Z)) : Prop :=
  List.length out = n /\
  forall j, (j < n)%nat ->
    exists blocks,
      nth_error out j = Some (List.concat blocks) /\
      List.length blocks = List.length cats /\
      Forall2 (fun cv b => block_of (fst cv) (snd cv) b)
              (combine cats (row_of T j)) blocks.


Definition parses (r : TransactionRecord) : Prop :=
  (exists d, Datetime.to_datetime (month r) = Ok d) /\
  (exists ym, Parser.remaining_lease (remaining_lease r) = Ok ym) /\
  In (storey_range r) storey_cat.

Definition indicator (c x : string) : Z := if String.eqb c x then 1 else 0.

(** The columns [x<i>_<c>] of one encoded feature [f]. *)
Definition indicator_columns (i : nat) (f : TransactionRecord -> string)
           (cats : list string) (rows : list TransactionRecord) : Frame :=
  map (fun c => (Sk.feature_name i c, map (fun r => Int (indicator c (f r))) rows))
      cats.

Definition key : Type := (nat * (TransactionRecord -> string) * string)%type.

Definition keys (c0 c1 c2 : list string) : list key :=
  map (fun c => (0%nat, town, c)) c0 ++ map (fun c => (1%nat, flat_type, c)) c1
  ++ map (fun c => (2%nat, flat_model, c)) c2.

Definition key_value (r : TransactionRecord) (k : key) : Z :=
  let '(_, f, c) := k in indicator c (f r).

Definition key_name (k : key) : string :=
  let '(i, _, c) := k in Sk.feature_name i c.

(** The vocabularies fitted on a corpus and its indicator columns. *)
Definition towns (rows : list TransactionRecord) : list string :=
  Sk.unique (map town rows).

Definition flat_types (rows : list TransactionRecord) : list string :=
  Sk.unique (map flat_type rows).

Definition flat_models (rows : list TransactionRecord) : list string :=
  Sk.unique (map flat_model rows).

Definition indicators (vocab rows : list TransactionRecord) : Frame :=
  indicator_columns 0 town (towns vocab) rows
  ++ indicator_columns 1 flat_type (flat_types vocab) rows
  ++ indicator_columns 2 flat_model (flat_models vocab) rows.

(** The cell of column [name] at row [j]. *)
Definition cell_at (fr : Frame) (name : string) (j : nat) : option cell :=
  match Pd.getcol fr name with
  | Ok col => nth_error col j
  | Raise _ => None
  end.

Definition indicator_names (rows : list TransactionRecord) : list string :=
  map (Sk.feature_name 0) (towns rows)
  ++ map (Sk.feature_name 1) (flat_types rows)
  ++ map (Sk.feature_name 2) (flat_models rows).

Definition seen (rows : list TransactionRecord) (r : TransactionRecord) : Prop :=
  In (town r) (map town rows) /\ In (flat_type r) (map flat_type rows) /\
  In (flat_model r) (map flat_model rows).

Definition fitted_ohe (rows : list TransactionRecord) : Sk.OneHotEncoder :=
  {| Sk.categories_ := [towns rows; flat_types rows; flat_models rows] |}.

Definition assembled_frame (rows : list TransactionRecord) (r : TransactionRecord)
           (y m z yr mo : Z) : Frame :=
  [ ("floor_area_sqm", [floor_area_sqm r]);
    ("sale_year", [Int y]); ("sale_month", [Int m]); ("storey", [Int z]) ]
  ++ indicators rows [r]
  ++ [ ("years_remaining", [Int yr]); ("months_remaining", [Int mo]) ].

(** A month that pandas reads as a missing timestamp: the empty text or one
    of the six words, as the text stands. *)
Definition is_nat_text (s : string) : bool :=
  existsb (String.eqb s) [""; "NaT"; "nat"; "NAT"; "nan"; "NaN"; "NAN"].

(** Two records with the same values in the seven columns the notebook
    keeps; [block], [street_name], [lease_commence_date] and [resale_price]
    may differ. *)
Definition same_features (r r' : TransactionRecord) : Prop :=
  month r = month r' /\ town r = town r' /\ flat_type r = flat_type r' /\
  storey_range r = storey_range r' /\ floor_area_sqm r = floor_area_sqm r' /\
  flat_model r = flat_model r' /\ remaining_lease r = remaining_lease r'.

(** Further concrete records and corpora. *)
Module Cases.

(** A corpus with one sale of unknown month. *)
Definition undated : list TransactionRecord :=
  Examples.flat "NaT" "YISHUN" "4 ROOM" "01 TO 03" "Model A"
                "70 years 04 months" 93 350000 NaN
  :: Examples.corpus.

Definition undated_nb : Notebook :=
  match Train.run undated with
  | Ok nb => nb
  | Raise _ => Examples.fitted
  end.

(** The corpus with its first two rows exchanged. *)
Definition swapped : list TransactionRecord :=
  match Examples.corpus with
  | a :: b :: l => b :: a :: l
  | l => l
  end.

(** The row handed to [predict] for [Examples.myflat]. *)
Definition priced : Frame :=
  match Predict.model_input Examples.fitted Examples.myflat with
  | Ok fr => fr
  | Raise _ => []
  end.

(** The corpus with other values in the columns that are dropped unread. *)
Definition relabel (r : TransactionRecord) : TransactionRecord :=
  {| month := month r; town := town r; flat_type := flat_type r;
     block := Str "1"; street_name := NaN; storey_range := storey_range r;
     floor_area_sqm := floor_area_sqm r; flat_model := flat_model r;
     lease_commence_date := Int 2000; remaining_lease := remaining_lease r;
     resale_price := Int 1 |}.

Definition relabelled : list TransactionRecord := map relabel Examples.corpus.

End Cases.

(** * Properties *)

(** The text columns of the frame are the text fields of the rows. *)
Lemma read_csv_text rows :
  Pd.getcol (read_csv rows) "month" = Ok (text month rows) /\
  Pd.getcol (read_csv rows) "town" = Ok (text town rows) /\
  Pd.getcol (read_csv rows) "flat_type" = Ok (text flat_type rows) /\
  Pd.getcol (read_csv rows) "storey_range" = Ok (text storey_range rows) /\
  Pd.getcol (read_csv rows) "flat_model" = Ok (text flat_model rows) /\
  Pd.getcol (read_csv rows) "remaining_lease" = Ok (text remaining_lease rows).
Proof. repeat split. Qed.

Lemma compare_OT a b : String.compare a b = String_as_OT.compare a b.
Proof.
  revert b; induction a as [|c a IH]; destruct b as [|d b]; simpl; auto.
Qed.

Lemma compare_trans a b c :
  String.compare a b = Lt -> String.compare b c = Lt -> String.compare a c = Lt.
Proof.
  rewrite !compare_OT. apply String_as_OT.lt_strorder.
Qed.

Lemma compare_refl a : String.compare a a = Eq.
Proof.
  pose proof (String.compare_antisym a a) as H.
  destruct (String.compare a a); simpl in H; congruence.
Qed.

(** *** Lists without repetition and positions *)

Lemma index_of_In x l i : Sk.index_of x l = Some i -> nth_error l i = Some x.
Proof.
  revert i; induction l as [|y l IH]; simpl; intros i H; [discriminate|].
  destruct (String.eqb_spec y x) as [->|Hne].
  - injection H as <-. reflexivity.
  - destruct (Sk.index_of x l) as [j|]; simpl in H; [|discriminate].
    injection H as <-. simpl. auto.
Qed.

Lemma index_of_None x l : Sk.index_of x l = None <-> ~ In x l.
Proof.
  induction l as [|y l IH]; simpl; [tauto|].
  destruct (String.eqb_spec y x) as [->|Hne].
  - split; [discriminate|]. intros H; exfalso; apply H; auto.
  - destruct (Sk.index_of x l); simpl.
    + split; [discriminate|]. intros H. exfalso. apply H. right.
      destruct (in_dec string_dec x l) as [Hi|Hn]; auto.
      apply IH in Hn. discriminate.
    + split; auto. intros _ [H|H]; [congruence|]. apply IH in H; auto.
Qed.

Lemma index_of_nth l : NoDup l ->
  forall i x, nth_error l i = Some x -> Sk.index_of x l = Some i.
Proof.
  induction 1 as [|y l Hy Hnd IH]; intros [|i] x H; simpl in *; try discriminate.
  - injection H as ->. rewrite String.eqb_refl. reflexivity.
  - destruct (String.eqb_spec y x) as [->|Hne].
    + exfalso. apply Hy. eapply nth_error_In; eauto.
    + rewrite (IH _ _ H). reflexivity.
Qed.

Lemma index_of_lt x l i : Sk.index_of x l = Some i -> (i < List.length l)%nat.
Proof.
  intros H. apply index_of_In in H. apply nth_error_Some. congruence.
Qed.

(** *** The sorted distinct values of a column *)

Lemma insert_In x y l : In y (Sk.insert x l) <-> y = x \/ In y l.
Proof.
  induction l as [|z l IH]; simpl.
  - intuition auto.
  - destruct (String.compare x z) eqn:E; simpl.
    + apply String.compare_eq_iff in E. subst z. intuition auto.
    + intuition auto.
    + rewrite IH. intuition auto.
Qed.

Lemma insert_sorted x l :
  StronglySorted str_lt l -> StronglySorted str_lt (Sk.insert x l).
Proof.
  induction 1 as [|z l Hs IH Hz]; simpl.
  - repeat constructor.
  - destruct (String.compare x z) eqn:E.
    + constructor; assumption.
    + constructor; [constructor; assumption|].
      constructor; [exact E|].
      eapply Forall_impl; [|exact Hz]. intros a Ha.
      eapply compare_trans; eauto.
    + constructor; [assumption|].
      apply Forall_forall. intros a Ha. apply insert_In in Ha.
      destruct Ha as [->|Ha].
      * unfold str_lt. rewrite String.compare_antisym, E. reflexivity.
      * rewrite Forall_forall in Hz. auto.
Qed.

Lemma unique_sorted col : StronglySorted str_lt (Sk.unique col).
Proof.
  induction col; simpl; [constructor | apply insert_sorted; assumption].
Qed.

Lemma unique_In x col : In x (Sk.unique col) <-> In x col.
Proof.
  induction col as [|a col IH]; simpl; [tauto|].
  rewrite insert_In, IH. intuition auto.
Qed.

Lemma sorted_NoDup l : StronglySorted str_lt l -> NoDup l.
Proof.
  induction 1 as [|z l Hs IH Hz]; constructor; auto.
  intros Hin. rewrite Forall_forall in Hz. specialize (Hz _ Hin).
  unfold str_lt in Hz. rewrite compare_refl in Hz. discriminate.
Qed.

Lemma unique_NoDup col : NoDup (Sk.unique col).
Proof. apply sorted_NoDup, unique_sorted. Qed.

(** *** Indicator blocks *)

Lemma onehot_length cats x : List.length (Sk.onehot cats x) = List.length cats.
Proof. apply length_map. Qed.

Lemma onehot_absent cats x :
  ~ In x cats -> Sk.onehot cats x = repeat 0 (List.length cats).
Proof.
  induction cats as [|c cats IH]; simpl; intros H; [reflexivity|].
  destruct (String.eqb_spec c x) as [->|_]; [exfalso; auto|].
  rewrite IH; auto.
Qed.

Lemma count_repeat_0 n :
  count_occ Z.eq_dec (repeat 0 n) 1 = 0%nat /\
  count_occ Z.eq_dec (repeat 0 n) 0 = n.
Proof.
  induction n as [|n [IH1 IH0]]; simpl; auto.
Qed.

Lemma onehot_count cats x :
  NoDup cats -> In x cats ->
  count_occ Z.eq_dec (Sk.onehot cats x) 1 = 1%nat /\
  count_occ Z.eq_dec (Sk.onehot cats x) 0 = (List.length cats - 1)%nat.
Proof.
  induction 1 as [|c cats Hc Hnd IH]; intros Hin; [contradiction|].
  simpl. destruct (String.eqb_spec c x) as [->|Hne].
  - fold (Sk.onehot cats x). rewrite (onehot_absent _ _ Hc).
    destruct (count_repeat_0 (List.length cats)) as [-> ->].
    simpl. split; [reflexivity | lia].
  - destruct Hin as [?|Hin]; [contradiction|].
    fold (Sk.onehot cats x). destruct (IH Hin) as [-> ->]. simpl.
    split; [reflexivity|].
    destruct cats; [contradiction | simpl; lia].
Qed.

Lemma encode_value_spec c x :
  NoDup c ->
  match Sk.encode_value c x with
  | Ok b => In x c /\ exactly_one (List.length c) b
  | Raise e => e = ValueError /\ ~ In x c
  end.
Proof.
  intros Hnd. unfold Sk.encode_value.
  destruct (Sk.index_of x c) as [i|] eqn:E.
  - assert (Hin : In x c) by (eapply nth_error_In, index_of_In; eauto).
    split; [assumption|]. split; [apply onehot_length|].
    apply onehot_count; assumption.
  - split; [reflexivity|]. apply index_of_None; assumption.
Qed.

Lemma encode_blocks_spec cats : Forall (@NoDup string) cats -> forall row,
  match Sk.encode_blocks cats row with
  | Ok blocks =>
      known row cats /\
      Forall2 (fun c b => exactly_one (List.length c) b) cats blocks
  | Raise e => e = ValueError /\ ~ known row cats
  end.
Proof.
  induction 1 as [|c cats Hc Hcs IH]; intros [|x row]; simpl.
  - split; constructor.
  - split; [reflexivity | inversion 1].
  - split; [reflexivity | inversion 1].
  - pose proof (encode_value_spec c x Hc) as Hv.
    destruct (Sk.encode_value c x) as [b|e]; simpl.
    + destruct Hv as [Hin Hb]. specialize (IH row).
      destruct (Sk.encode_blocks cats row) as [bs|e]; simpl.
      * destruct IH as [Hk Hbs]. split; constructor; assumption.
      * destruct IH as [-> Hk]. split; [reflexivity|].
        inversion 1; subst; auto.
    + destruct Hv as [-> Hin]. split; [reflexivity|].
      inversion 1; subst; auto.
Qed.

Lemma ohe_fit_inv X enc :
  Sk.ohe_fit X = Ok enc -> enc = {| Sk.categories_ := map Sk.unique X |}.
Proof.
  unfold Sk.ohe_fit. destruct (mapM Sk.check_array X); simpl; congruence.
Qed.

Lemma fitted_NoDup X enc :
  Sk.ohe_fit X = Ok enc -> Forall (@NoDup string) (Sk.categories_ enc).
Proof.
  intros H. apply ohe_fit_inv in H. subst enc. simpl.
  apply Forall_forall. intros c Hc. apply in_map_iff in Hc.
  destruct Hc as (col & <- & _). apply unique_NoDup.
Qed.

Lemma mapM_Forall2 {A B} (f : A -> result B) l out :
  mapM f l = Ok out -> Forall2 (fun a b => f a = Ok b) l out.
Proof.
  revert out; induction l as [|a l IH]; simpl; intros out H.
  - injection H as <-. constructor.
  - destruct (f a) as [b|] eqn:Ea; simpl in H; [|discriminate].
    destruct (mapM f l) as [bs|]; simpl in H; [|discriminate].
    injection H as <-. constructor; auto.
Qed.

Lemma mapM_Raise {A B} (f : A -> result B) l e :
  mapM f l = Raise e -> exists a, In a l /\ f a = Raise e.
Proof.
  induction l as [|a l IH]; simpl; [discriminate|].
  destruct (f a) as [b|e'] eqn:Ea; simpl.
  - destruct (mapM f l) as [bs|e']; simpl; [discriminate|].
    intros H; injection H as ->. destruct IH as (a' & Hin & Ha'); eauto.
  - intros H; injection H as ->. eauto.
Qed.

Lemma mapM_In_Raise {A B} (f : A -> result B) l a e :
  In a l -> f a = Raise e -> (forall a' e', f a' = Raise e' -> e' = e) ->
  mapM f l = Raise e.
Proof.
  intros Hin Ha Hall.
  destruct (mapM f l) as [out|e'] eqn:E.
  - apply mapM_Forall2 in E. exfalso.
    induction E; simpl in Hin; [contradiction|].
    destruct Hin as [->|Hin]; [congruence | auto].
  - apply mapM_Raise in E. destruct E as (a' & _ & Ha').
    f_equal. eauto.
Qed.

Lemma Forall2_In_r {A B} (R : A -> B -> Prop) l out b :
  Forall2 R l out -> In b out -> exists a, In a l /\ R a b.
Proof.
  induction 1 as [|a b' l out Hab _ IH]; simpl; [contradiction|].
  intros [->|Hin]; [eauto|]. destruct (IH Hin) as (a' & ? & ?); eauto.
Qed.

(** *** The ordinal encoder *)

Lemma oe_fit_inv cats X enc :
  Sk.oe_fit cats X = Ok enc -> enc = {| Sk.oe_categories_ := cats |}.
Proof.
  unfold Sk.oe_fit. destruct (Sk.check_array X); simpl; [|discriminate].
  destruct (mapM (Sk.oe_encode cats) X); simpl; congruence.
Qed.

Lemma oe_transform_one enc s :
  Sk.oe_transform enc [s] =
  match Sk.index_of s (Sk.oe_categories_ enc) with
  | Some i => Ok [Z.of_nat i]
  | None => Raise ValueError
  end.
Proof.
  unfold Sk.oe_transform, Sk.oe_encode. simpl.
  destruct (Sk.index_of s (Sk.oe_categories_ enc)); reflexivity.
Qed.

Lemma In_mem x l : In x l -> Datetime.mem x l = true.
Proof.
  intros H. apply existsb_exists. exists x. split; [exact H | apply String.eqb_refl].
Qed.

Ltac not_in := let H := fresh in intros H; apply In_mem in H; vm_compute in H; discriminate H.

Lemma storey_cat_NoDup : NoDup storey_cat.
Proof.
  unfold storey_cat.
  repeat (constructor; [not_in|]). constructor.
Qed.

Lemma storey_cat_lt i s : nth_error storey_cat i = Some s -> (i < 17)%nat.
Proof.
  intros H. assert (Hn : nth_error storey_cat i <> None) by congruence.
  apply nth_error_Some in Hn. exact Hn.
Qed.

Lemma storey_cat_order i j a b :
  nth_error storey_cat i = Some a -> nth_error storey_cat j = Some b ->
  (String.ltb a b = true <-> (i < j)%nat).
Proof.
  intros Ha Hb.
  pose proof (storey_cat_lt _ _ Ha) as Hi.
  pose proof (storey_cat_lt _ _ Hb) as Hj.
  do 17 (destruct i as [|i]; [
    do 17 (destruct j as [|j]; [
      injection Ha as <-; injection Hb as <-; vm_compute; split; (discriminate || lia || reflexivity) |]); lia |]).
  lia.
Qed.

(** C4. The ordinal encoder is fitted on the seventeen storey ranges of
    [storey_cat], whatever the data: its categories are that list. The label
    at position [i] of the list, and only that label, is encoded as [i], so
    the encoding is a bijection between the seventeen labels and 0..16; it is
    strictly increasing for the order of the labels as text, which is the
    order of the list; a text outside the list makes [transform] raise
    [ValueError], the exception scikit-learn raises for an unknown
    category. *)
Theorem ordinal_encoder_bijection X enc :
  Sk.oe_fit storey_cat X = Ok enc ->
  Sk.oe_categories_ enc = storey_cat /\
  List.length storey_cat = 17%nat /\
  (forall i s, nth_error storey_cat i = Some s <->
               Sk.oe_transform enc [s] = Ok [Z.of_nat i]) /\
  (forall s z, Sk.oe_transform enc [s] = Ok [z] -> 0 <= z <= 16) /\
  (forall a b za zb,
     Sk.oe_transform enc [a] = Ok [za] -> Sk.oe_transform enc [b] = Ok [zb] ->
     (String.ltb a b = true <-> za < zb)) /\
  (forall s, ~ In s storey_cat -> Sk.oe_transform enc [s] = Raise ValueError).
Proof.
  intros Hfit. apply oe_fit_inv in Hfit. subst enc.
  cbn [Sk.oe_categories_].
  assert (Hcode : forall s z,
             Sk.oe_transform {| Sk.oe_categories_ := storey_cat |} [s] = Ok [z] ->
             exists i, z = Z.of_nat i /\ nth_error storey_cat i = Some s).
  { intros s z H. rewrite oe_transform_one in H. cbn [Sk.oe_categories_] in H.
    destruct (Sk.index_of s storey_cat) as [i|] eqn:E; [|discriminate].
    injection H as <-. exists i. split; [reflexivity|].
    apply index_of_In; assumption. }
  split; [reflexivity|]. split; [reflexivity|]. split; [|split; [|split]].
  - intros i s. rewrite oe_transform_one. cbn [Sk.oe_categories_]. split.
    + intros H. rewrite (index_of_nth _ storey_cat_NoDup _ _ H). reflexivity.
    + intros H. destruct (Sk.index_of s storey_cat) as [j|] eqn:E; [|discriminate].
      injection H as H. apply Nat2Z.inj in H. subst j.
      apply index_of_In; assumption.
  - intros s z H. destruct (Hcode _ _ H) as (i & -> & Hi).
    pose proof (storey_cat_lt _ _ Hi). lia.
  - intros a b za zb Ha Hb.
    destruct (Hcode _ _ Ha) as (i & -> & Hi).
    destruct (Hcode _ _ Hb) as (j & -> & Hj).
    rewrite (storey_cat_order _ _ _ _ Hi Hj). lia.
  - intros s Hs. rewrite oe_transform_one. cbn [Sk.oe_categories_].
    apply index_of_None in Hs. rewrite Hs. reflexivity.
Qed.

Lemma ordinal_encoder_bijection_witness :
  Sk.oe_transform {| Sk.oe_categories_ := storey_cat |} ["49 TO 51"] = Ok [16] /\
  Sk.oe_transform {| Sk.oe_categories_ := storey_cat |} ["52 TO 54"] = Raise ValueError.
Proof.
  pose proof (ordinal_encoder_bijection
                ["01 TO 03"] {| Sk.oe_categories_ := storey_cat |} eq_refl)
    as (_ & _ & Hpos & _ & _ & Hout).
  split.
  - apply (Hpos 16%nat "49 TO 51"). reflexivity.
  - apply Hout. not_in.
Defined.

(** *** Labels of the indicator columns *)

Lemma feature_names_x i cats :
  Forall (fun n => starts_x n = true) (Sk.feature_names_from i cats).
Proof.
  revert i; induction cats as [|c cats IH]; intros i; simpl; [constructor|].
  apply Forall_app. split; [|apply IH].
  apply Forall_forall. intros n Hn. apply in_map_iff in Hn.
  destruct Hn as (v & <- & _). reflexivity.
Qed.

Lemma starts_x_neq a b : starts_x a = true -> starts_x b = false -> String.eqb a b = false.
Proof.
  intros Ha Hb. apply String.eqb_neq. intros ->. congruence.
Qed.

Lemma has_x_false (df : Frame) n :
  starts_x n = true -> Forall (fun m => starts_x m = false) (Pd.columns df) ->
  Pd.has df n = false.
Proof.
  intros Hn Hdf. unfold Pd.has. induction Hdf as [|m ms Hm _ IH]; simpl; [reflexivity|].
  rewrite (starts_x_neq _ _ Hn Hm), IH. reflexivity.
Qed.

Lemma has_other_false (other : Frame) n :
  starts_x n = false -> Forall (fun m => starts_x m = true) (Pd.columns other) ->
  Pd.has other n = false.
Proof.
  intros Hn Ho. unfold Pd.has. induction Ho as [|m ms Hm _ IH]; simpl; [reflexivity|].
  rewrite String.eqb_sym, (starts_x_neq _ _ Hm Hn), IH. reflexivity.
Qed.

Lemma join_x (df other : Frame) :
  Forall (fun m => starts_x m = false) (Pd.columns df) ->
  Forall (fun m => starts_x m = true) (Pd.columns other) ->
  Pd.join df other = Ok (df ++ other).
Proof.
  intros Hdf Ho. unfold Pd.join.
  replace (existsb (Pd.has df) (Pd.columns other)) with false; [reflexivity|].
  symmetry. induction Ho as [|m ms Hm _ IH]; simpl; [reflexivity|].
  rewrite (has_x_false _ _ Hm Hdf), IH. reflexivity.
Qed.

Lemma drop_x (df other : Frame) names :
  Forall (fun n => starts_x n = false) names ->
  Forall (fun m => starts_x m = true) (Pd.columns other) ->
  Pd.drop (df ++ other) names = (d <- Pd.drop df names ;; Ok (d ++ other)).
Proof.
  intros Hn Ho. unfold Pd.drop.
  replace (forallb (Pd.has (df ++ other)) names) with (forallb (Pd.has df) names).
  - destruct (forallb (Pd.has df) names); simpl; [|reflexivity].
    rewrite filter_app. do 2 f_equal.
    unfold Pd.columns in Ho. rewrite Forall_map in Ho.
    induction Ho as [|c cs Hc _ IH]; simpl; [reflexivity|].
    replace (existsb (String.eqb (fst c)) names) with false; [simpl; congruence|].
    symmetry. clear -Hn Hc. induction Hn as [|n ns Hn' _ IH]; simpl; [reflexivity|].
    rewrite (starts_x_neq _ _ Hc Hn'), IH. reflexivity.
  - induction Hn as [|n ns Hn' _ IH]; simpl; [reflexivity|].
    rewrite IH. f_equal. unfold Pd.has at 2. unfold Pd.columns.
    rewrite map_app, existsb_app.
    fold (Pd.columns df). fold (Pd.columns other). fold (Pd.has df n). fold (Pd.has other n).
    rewrite (has_other_false _ _ Hn' Ho). rewrite orb_false_r. reflexivity.
Qed.

Lemma combine_columns {A} (names : list string) (cols : list A) :
  List.length cols = List.length names -> map fst (combine names cols) = names.
Proof.
  revert cols; induction names as [|n names IH]; intros [|c cols]; simpl;
    try reflexivity; try discriminate.
  intros H. injection H as H. rewrite IH; auto.
Qed.

Lemma zip_cons_length {A} (xs : list A) ls :
  List.length xs = List.length ls -> List.length (Pd.zip_cons xs ls) = List.length ls.
Proof.
  revert ls; induction xs as [|x xs IH]; intros [|l ls]; simpl; try reflexivity; try discriminate.
  intros H. injection H as H. rewrite IH; auto.
Qed.

Lemma transpose_length {A} n (t : list (list A)) :
  Forall (fun r => List.length r = n) t -> List.length (Pd.transpose n t) = n.
Proof.
  unfold Pd.transpose. induction 1 as [|r t Hr _ IH]; simpl.
  - apply repeat_length.
  - rewrite zip_cons_length; congruence.
Qed.

Lemma DataFrame_columns rows names :
  Forall (fun r => List.length r = List.length names) rows ->
  Pd.columns (DataFrame rows names) = names.
Proof.
  intros H. unfold DataFrame, Pd.columns. apply combine_columns.
  apply transpose_length. rewrite Forall_map.
  eapply Forall_impl; [|exact H]. intros r Hr. rewrite length_map. exact Hr.
Qed.

Lemma feature_names_length i cats :
  List.length (Sk.feature_names_from i cats) = List.length (List.concat cats).
Proof.
  revert i; induction cats as [|c cats IH]; intros i; simpl; [reflexivity|].
  rewrite !length_app, length_map, IH. reflexivity.
Qed.

Lemma encode_row_length cats row o :
  Sk.encode_row cats row = Ok o -> List.length o = List.length (List.concat cats).
Proof.
  unfold Sk.encode_row. revert row o.
  induction cats as [|c cats IH]; intros [|x row] o; simpl; try discriminate.
  - intros H; injection H as <-. reflexivity.
  - unfold Sk.encode_value. destruct (Sk.index_of x c); simpl; [|discriminate].
    specialize (IH row).
    destruct (Sk.encode_blocks cats row) as [bs|]; simpl in *; [|discriminate].
    intros H; injection H as <-. rewrite !length_app, onehot_length.
    f_equal. apply IH. reflexivity.
Qed.

Lemma ohe_transform_width enc T out :
  Sk.ohe_transform enc T = Ok out ->
  Forall (fun r => List.length r = List.length (Sk.get_feature_names enc)) out.
Proof.
  unfold Sk.ohe_transform. destruct (mapM Sk.check_array T); simpl; [|discriminate].
  intros H. apply mapM_Forall2 in H. apply Forall_forall. intros o Ho.
  destruct (Forall2_In_r _ _ _ _ H Ho) as (row & _ & Hrow).
  unfold Sk.get_feature_names. rewrite feature_names_length.
  eapply encode_row_length; eauto.
Qed.

Lemma encoded_frame_x q :
  Forall (fun m => starts_x m = true) (Pd.columns (encoded_frame q)).
Proof.
  unfold encoded_frame, DataFrame, Pd.columns.
  pose proof (feature_names_x 0 (Sk.categories_ (fst q))) as Hx.
  fold (Sk.get_feature_names (fst q)) in Hx.
  revert Hx. generalize (Sk.get_feature_names (fst q)) as names.
  intros names.
  generalize (Pd.transpose (List.length names) (map (map Int) (snd q))) as cols.
  induction names as [|n names IH]; intros cols Hx; simpl; [constructor|].
  destruct cols as [|c cols]; simpl; [constructor|].
  inversion Hx; subst. constructor; auto.
Qed.

Lemma run_normal rows :
  Train.run rows =
  (sale_date <- mapM Datetime.to_datetime (map month rows) ;;
   years <- mapM Parser.years_remaining (map remaining_lease rows) ;;
   months <- mapM Parser.months_remaining (map remaining_lease rows) ;;
   p <- Sk.oe_fit_transform storey_cat (map storey_range rows) ;;
   q <- Sk.ohe_fit_transform (ohe_input rows) ;;
   Ok {| df := [ ("floor_area_sqm", map floor_area_sqm rows);
                 ("resale_price", map resale_price rows);
                 ("sale_year", map dt_year sale_date);
                 ("sale_month", map dt_month sale_date);
                 ("years_remaining", map Int years);
                 ("months_remaining", map Int months);
                 ("storey", map Int (snd p)) ] ++ encoded_frame q;
         oe := fst p;
         ohe := fst q;
         isna_shown :=
           Pd.isna_sum
             ([ ("town", text town rows);
                ("flat_type", text flat_type rows);
                ("block", map block rows);
                ("street_name", map street_name rows);
                ("storey_range", text storey_range rows);
                ("floor_area_sqm", map floor_area_sqm rows);
                ("flat_model", text flat_model rows);
                ("resale_price", map resale_price rows);
                ("sale_year", map dt_year sale_date);
                ("sale_month", map dt_month sale_date);
                ("years_remaining", map Int years);
                ("months_remaining", map Int months);
                ("storey", map Int (snd p)) ] ++ encoded_frame q);
         X := [ ("floor_area_sqm", map floor_area_sqm rows);
                ("sale_year", map dt_year sale_date);
                ("sale_month", map dt_month sale_date);
                ("years_remaining", map Int years);
                ("months_remaining", map Int months);
                ("storey", map Int (snd p)) ] ++ encoded_frame q;
         y := map resale_price rows |}).
Proof.
  unfold Train.run, Train.dates, Train.lease, Train.storey, Train.onehot.
  destruct (mapM Datetime.to_datetime (map month rows)) as [sale_date|]; [|reflexivity].
  cbn [bind].
  change (Pd.drop _ ["sale_date"; "month"]) with
    (Ok (A:=Frame) [ ("town", text town rows);
          ("flat_type", text flat_type rows);
          ("block", map block rows);
          ("street_name", map street_name rows);
          ("storey_range", text storey_range rows);
          ("floor_area_sqm", map floor_area_sqm rows);
          ("flat_model", text flat_model rows);
          ("lease_commence_date", map lease_commence_date rows);
          ("remaining_lease", text remaining_lease rows);
          ("resale_price", map resale_price rows);
          ("sale_year", map dt_year sale_date);
          ("sale_month", map dt_month sale_date) ]).
  cbn [bind].
  destruct (mapM Parser.years_remaining (map remaining_lease rows)) as [years|]; [|reflexivity].
  cbn [bind].
  destruct (mapM Parser.months_remaining (map remaining_lease rows)) as [months|]; [|reflexivity].
  cbn [bind].
  change (Pd.drop _ ["remaining_lease"; "lease_commence_date"]) with
    (Ok (A:=Frame) [ ("town", text town rows);
          ("flat_type", text flat_type rows);
          ("block", map block rows);
          ("street_name", map street_name rows);
          ("storey_range", text storey_range rows);
          ("floor_area_sqm", map floor_area_sqm rows);
          ("flat_model", text flat_model rows);
          ("resale_price", map resale_price rows);
          ("sale_year", map dt_year sale_date);
          ("sale_month", map dt_month sale_date);
          ("years_remaining", map Int years);
          ("months_remaining", map Int months) ]).
  cbn [bind].
  destruct (Sk.oe_fit_transform storey_cat (map storey_range rows)) as [[oe codes]|]; [|reflexivity].
  cbn [bind fst snd].
  destruct (Sk.ohe_fit_transform (ohe_input rows)) as [[ohe enc_rows]|]; [|reflexivity].
  cbn [bind fst snd].
  fold (encoded_frame (ohe, enc_rows)).
  pose proof (encoded_frame_x (ohe, enc_rows)) as Hx.
  set (E := encoded_frame (ohe, enc_rows)) in *.
  cbn [Pd.setcol String.eqb Ascii.eqb Bool.eqb].
  rewrite join_x; [|repeat constructor | exact Hx].
  cbn [bind].
  rewrite drop_x; [|repeat constructor | exact Hx].
  change (Pd.drop _ Train.dropped) with
    (Ok (A:=Frame) [ ("floor_area_sqm", map floor_area_sqm rows);
          ("resale_price", map resale_price rows);
          ("sale_year", map dt_year sale_date);
          ("sale_month", map dt_month sale_date);
          ("years_remaining", map Int years);
          ("months_remaining", map Int months);
          ("storey", map Int codes) ]).
  cbn [bind].
  rewrite drop_x; [|repeat constructor | exact Hx].
  reflexivity.
Qed.

Ltac bind_inv H :=
  repeat match type of H with
         | bind ?m _ = Ok _ =>
             let E := fresh "E" in
             destruct m eqn:E; cbn [bind] in H; [|discriminate H]
         end.

Lemma run_fitted : Train.run Examples.corpus = Ok Examples.fitted.
Proof. vm_compute. reflexivity. Qed.

(** C10. Whenever the training cells run through, the column
    [floor_area_sqm] of the feature frame [X] is the column of the raw
    records, row by row and in their order, the label [y] is the column
    [resale_price] of the raw records in their order, and [X] has no column
    [resale_price]. *)
Theorem floor_area_and_label_untouched rows nb :
  Train.run rows = Ok nb ->
  Pd.getcol (X nb) "floor_area_sqm" = Ok (map floor_area_sqm rows) /\
  y nb = map resale_price rows /\
  Pd.has (X nb) "resale_price" = false.
Proof.
  intros H. rewrite run_normal in H. bind_inv H.
  injection H as <-. cbn [X y]. repeat split.
  unfold Pd.has, Pd.columns. cbn [map fst existsb].
  replace (String.eqb "resale_price" "floor_area_sqm") with false by reflexivity.
  replace (String.eqb "resale_price" "sale_year") with false by reflexivity.
  replace (String.eqb "resale_price" "sale_month") with false by reflexivity.
  replace (String.eqb "resale_price" "years_remaining") with false by reflexivity.
  replace (String.eqb "resale_price" "months_remaining") with false by reflexivity.
  replace (String.eqb "resale_price" "storey") with false by reflexivity.
  cbn [orb].
  apply (has_other_false (encoded_frame _) "resale_price" eq_refl).
  apply encoded_frame_x.
Qed.

Lemma floor_area_and_label_untouched_witness :
  Pd.getcol (X Examples.fitted) "floor_area_sqm"
    = Ok [Flt (93#1); Flt (67#1); Flt (68#1); Flt (92#1)] /\
  y Examples.fitted
    = [Flt (350000#1); Flt (250000#1); Flt (280000#1); Flt (420000#1)].
Proof.
  pose proof (floor_area_and_label_untouched Examples.corpus Examples.fitted
                                              run_fitted) as (Hx & Hy & _).
  split; [exact Hx | exact Hy].
Defined.

(** *** Selecting and ordering columns *)

Lemma select_pick fr names :
  Pd.select fr names = (cs <- mapM (pick fr) names ;; Ok (List.concat cs)).
Proof. reflexivity. Qed.

Lemma pick_Ok fr name found :
  pick fr name = Ok found ->
  found = filter (fun c => String.eqb (fst c) name) fr /\ In name (Pd.columns fr).
Proof.
  unfold pick. destruct (filter _ fr) as [|c cs] eqn:E; [discriminate|].
  intros H; injection H as <-. split; [reflexivity|].
  assert (Hin : In c (filter (fun c => String.eqb (fst c) name) fr))
    by (rewrite E; left; reflexivity).
  apply filter_In in Hin. destruct Hin as [Hin Hc].
  apply String.eqb_eq in Hc. subst name. apply in_map. exact Hin.
Qed.

Lemma pick_In fr name :
  In name (Pd.columns fr) -> exists found, pick fr name = Ok found.
Proof.
  intros Hin. unfold pick. apply in_map_iff in Hin.
  destruct Hin as (c & <- & Hin).
  assert (Hf : In c (filter (fun c' => String.eqb (fst c') (fst c)) fr))
    by (apply filter_In; split; [assumption | apply String.eqb_refl]).
  destruct (filter _ fr); [contradiction | eauto].
Qed.

Lemma pick_Raise fr name e : pick fr name = Raise e -> e = KeyError.
Proof.
  unfold pick. destruct (filter _ fr); [|discriminate]. congruence.
Qed.

Lemma filter_single (fr : Frame) name :
  NoDup (Pd.columns fr) -> In name (Pd.columns fr) ->
  exists v, filter (fun c => String.eqb (fst c) name) fr = [(name, v)].
Proof.
  unfold Pd.columns. induction fr as [|[n v] fr IH]; simpl; [contradiction|].
  intros Hnd Hin. inversion Hnd as [|? ? Hn Hnd']; subst.
  destruct (String.eqb_spec n name) as [->|Hne].
  - exists v. f_equal.
    clear -Hn. induction fr as [|[m w] fr IH]; simpl in *; [reflexivity|].
    destruct (String.eqb_spec m name) as [->|_]; [exfalso; auto|].
    apply IH. tauto.
  - destruct Hin as [?|Hin]; [contradiction|]. auto.
Qed.

Lemma select_aligned (fr : Frame) names out :
  NoDup names -> List.length (Pd.columns fr) = List.length names ->
  Pd.select fr names = Ok out ->
  Pd.columns out = names /\
  Permutation names (Pd.columns fr) /\
  incl out fr.
Proof.
  intros Hnd Hlen Hsel. rewrite select_pick in Hsel. bind_inv Hsel.
  injection Hsel as <-. rename a into cs. apply mapM_Forall2 in E.
  assert (Hincl : incl names (Pd.columns fr)).
  { intros n Hn. clear -E Hn. induction E as [|n' c names cs Hp _ IH]; [contradiction|].
    destruct Hn as [->|Hn]; [|auto]. apply pick_Ok in Hp. tauto. }
  assert (Hperm : Permutation names (Pd.columns fr))
    by (apply NoDup_Permutation_bis; [assumption | lia | assumption]).
  assert (Hnd' : NoDup (Pd.columns fr))
    by (eapply Permutation_NoDup; eauto).
  split; [|split; [exact Hperm|]].
  - clear -E Hnd'. induction E as [|n c names cs Hp _ IH]; [reflexivity|].
    apply pick_Ok in Hp. destruct Hp as [-> Hin].
    destruct (filter_single fr n Hnd' Hin) as (v & ->).
    unfold Pd.columns in *. cbn [List.concat app map fst]. rewrite IH. reflexivity.
  - clear -E. induction E as [|n c names cs Hp _ IH]; [intros ? []|].
    simpl. apply incl_app; [|exact IH].
    apply pick_Ok in Hp. destruct Hp as [-> _].
    intros x Hx. apply filter_In in Hx. tauto.
Qed.

Lemma select_Raise fr names e : Pd.select fr names = Raise e -> e = KeyError.
Proof.
  rewrite select_pick. destruct (mapM (pick fr) names) as [cs|e'] eqn:E; [discriminate|].
  cbn [bind]. intros H; injection H as ->.
  apply mapM_Raise in E. destruct E as (n & _ & Hn). eapply pick_Raise; eauto.
Qed.

Lemma select_total fr names :
  incl names (Pd.columns fr) -> exists out, Pd.select fr names = Ok out.
Proof.
  intros Hincl. rewrite select_pick.
  destruct (mapM (pick fr) names) as [cs|e] eqn:E; [cbn [bind]; eauto|].
  apply mapM_Raise in E. destruct E as (n & Hn & Hp).
  destruct (pick_In fr n (Hincl _ Hn)) as (found & Hf). congruence.
Qed.

Lemma feature_names_NoDup u0 u1 u2 :
  NoDup u0 -> NoDup u1 -> NoDup u2 ->
  NoDup (Sk.feature_names_from 0 [u0; u1; u2]).
Proof.
  intros H0 H1 H2. cbn [Sk.feature_names_from]. rewrite app_nil_r.
  change (Sk.feature_name 0) with (fun c => String "x" (String "0" (String "_" c))).
  change (Sk.feature_name 1) with (fun c => String "x" (String "1" (String "_" c))).
  change (Sk.feature_name 2) with (fun c => String "x" (String "2" (String "_" c))).
  assert (Hmap : forall (p : string -> string) u,
             (forall a b, p a = p b -> a = b) -> NoDup u -> NoDup (map p u)).
  { intros p u Hp. induction 1 as [|a u Ha _ IH]; simpl; constructor; auto.
    intros Hin. apply in_map_iff in Hin. destruct Hin as (b & Hb & Hin).
    apply Hp in Hb. subst b. contradiction. }
  apply NoDup_app; [|apply NoDup_app|].
  - apply Hmap; [|assumption]. intros a b H. injection H. auto.
  - apply Hmap; [|assumption]. intros a b H. injection H. auto.
  - apply Hmap; [|assumption]. intros a b H. injection H. auto.
  - intros n Ha Hb. apply in_map_iff in Ha, Hb.
    destruct Ha as (a & <- & _). destruct Hb as (b & Hb & _). discriminate.
  - intros n Ha Hb. apply in_map_iff in Ha. destruct Ha as (a & <- & _).
    apply in_app_or in Hb. destruct Hb as [Hb|Hb];
      apply in_map_iff in Hb; destruct Hb as (b & Hb & _); discriminate.
Qed.

Lemma ohe_fit_transform_inv T q :
  Sk.ohe_fit_transform T = Ok q ->
  fst q = {| Sk.categories_ := map Sk.unique T |} /\
  Sk.ohe_transform (fst q) T = Ok (snd q).
Proof.
  unfold Sk.ohe_fit_transform. intros H. bind_inv H. injection H as <-.
  apply ohe_fit_inv in E. subst a. cbn [fst snd]. auto.
Qed.

Lemma oe_fit_transform_inv cats T p :
  Sk.oe_fit_transform cats T = Ok p ->
  fst p = {| Sk.oe_categories_ := cats |} /\
  Sk.oe_transform (fst p) T = Ok (snd p).
Proof.
  unfold Sk.oe_fit_transform. intros H. bind_inv H. injection H as <-.
  apply oe_fit_inv in E. subst a. cbn [fst snd]. auto.
Qed.

Lemma filter_x (other : Frame) names :
  Forall (fun n => starts_x n = false) names ->
  Forall (fun m => starts_x m = true) (Pd.columns other) ->
  filter (fun c => negb (existsb (String.eqb (fst c)) names)) other = other.
Proof.
  intros Hn Ho. unfold Pd.columns in Ho. rewrite Forall_map in Ho.
  induction Ho as [|c cs Hc _ IH]; simpl; [reflexivity|].
  replace (existsb (String.eqb (fst c)) names) with false; [simpl; congruence|].
  symmetry. clear -Hn Hc. induction Hn as [|n ns Hn' _ IH]; simpl; [reflexivity|].
  rewrite (starts_x_neq _ _ Hc Hn'), IH. reflexivity.
Qed.

Lemma setcol_new (fr : Frame) name v :
  Pd.has fr name = false -> Pd.setcol fr name v = fr ++ [(name, v)].
Proof.
  unfold Pd.has, Pd.columns. induction fr as [|[n w] fr IH]; simpl; [reflexivity|].
  intros H. apply orb_false_elim in H. destruct H as [Hn Hfr].
  rewrite String.eqb_sym, Hn, (IH Hfr). reflexivity.
Qed.

Lemma has_app (a b : Frame) name :
  Pd.has (a ++ b) name = Pd.has a name || Pd.has b name.
Proof. unfold Pd.has, Pd.columns. rewrite map_app, existsb_app. reflexivity. Qed.

Lemma assemble_normal nb r :
  Predict.assemble nb r =
  (sale_year <- mapM Parser.sale_year [month r] ;;
   sale_month <- mapM Parser.sale_month [month r] ;;
   codes <- Sk.oe_transform (oe nb) [storey_range r] ;;
   enc <- Sk.ohe_transform (ohe nb) (ohe_input [r]) ;;
   years <- mapM Parser.years_remaining [remaining_lease r] ;;
   months <- mapM Parser.months_remaining [remaining_lease r] ;;
   Ok ([ ("floor_area_sqm", [floor_area_sqm r]);
         ("sale_year", map Int sale_year);
         ("sale_month", map Int sale_month);
         ("storey", map Int codes) ]
       ++ DataFrame enc (Sk.get_feature_names (ohe nb))
       ++ [ ("years_remaining", map Int years);
            ("months_remaining", map Int months) ])).
Proof.
  unfold Predict.assemble.
  destruct (mapM Parser.sale_year [month r]) as [sy|]; [|reflexivity]. cbn [bind].
  destruct (mapM Parser.sale_month [month r]) as [sm|]; [|reflexivity]. cbn [bind].
  change (Pd.drop _ ["month"]) with
    (Ok (A:=Frame) [ ("town", text town [r]);
          ("flat_type", text flat_type [r]);
          ("block", map block [r]);
          ("street_name", map street_name [r]);
          ("storey_range", text storey_range [r]);
          ("floor_area_sqm", map floor_area_sqm [r]);
          ("flat_model", text flat_model [r]);
          ("lease_commence_date", map lease_commence_date [r]);
          ("remaining_lease", text remaining_lease [r]);
          ("sale_year", map Int sy);
          ("sale_month", map Int sm) ]).
  cbn [bind].
  destruct (Sk.oe_transform (oe nb) [storey_range r]) as [codes|]; [|reflexivity].
  cbn [bind].
  destruct (Sk.ohe_transform (ohe nb) (ohe_input [r])) as [enc|]; [|reflexivity].
  cbn [bind].
  pose proof (encoded_frame_x (ohe nb, enc)) as Hx.
  change (encoded_frame (ohe nb, enc))
    with (DataFrame enc (Sk.get_feature_names (ohe nb))) in Hx.
  set (E := DataFrame enc (Sk.get_feature_names (ohe nb))) in *.
  cbn [Pd.setcol String.eqb Ascii.eqb Bool.eqb].
  rewrite join_x; [|repeat constructor | exact Hx].
  cbn [bind].
  destruct (mapM Parser.years_remaining [remaining_lease r]) as [years|]; [|reflexivity].
  cbn [bind].
  destruct (mapM Parser.months_remaining [remaining_lease r]) as [months|]; [|reflexivity].
  cbn [bind].
  rewrite (setcol_new _ "years_remaining").
  2:{ rewrite has_app. rewrite (has_other_false E "years_remaining" eq_refl Hx).
      reflexivity. }
  rewrite (setcol_new _ "months_remaining").
  2:{ rewrite !has_app. rewrite (has_other_false E "months_remaining" eq_refl Hx).
      reflexivity. }
  unfold Pd.drop.
  match goal with |- (if ?b then _ else _) = _ => replace b with true end.
  2:{ symmetry. cbn [app Train.dropped forallb].
      repeat (rewrite has_app; rewrite has_app).
      reflexivity. }
  rewrite <- !app_assoc. rewrite !filter_app.
  rewrite (filter_x E); [|repeat constructor | exact Hx].
  reflexivity.
Qed.

(** *** A notebook that has been trained *)

Section Trained.

Variable rows : list TransactionRecord.
Variable nb : Notebook.
Hypothesis Hrun : Train.run rows = Ok nb.

Lemma run_columns :
  X_train_columns nb = fixed_columns ++ Sk.get_feature_names (ohe nb) /\
  NoDup (X_train_columns nb) /\
  List.length (Pd.columns (df nb)) = S (List.length (X_train_columns nb)).
Proof.
  pose proof Hrun as H. clear Hrun.
  rewrite run_normal in H. bind_inv H. injection H as <-.
  unfold X_train_columns. cbn [X df ohe].
  destruct (ohe_fit_transform_inv _ _ E3) as [Hcat Htr].
  assert (Hcols : Pd.columns (encoded_frame a3) = Sk.get_feature_names (fst a3)).
  { apply DataFrame_columns. eapply ohe_transform_width; eauto. }
  unfold Pd.columns in *. cbn [map fst app]. rewrite Hcols.
  split; [reflexivity|]. split; [|cbn [List.length app]; reflexivity].
  change (NoDup (fixed_columns ++ Sk.get_feature_names (fst a3))).
  pose proof (feature_names_x 0 (Sk.categories_ (fst a3))) as Hx.
  fold (Sk.get_feature_names (fst a3)) in Hx.
  assert (Hnd : NoDup (Sk.get_feature_names (fst a3))).
  { unfold Sk.get_feature_names. rewrite Hcat. cbn [Sk.categories_ ohe_input ohe_features map].
    apply feature_names_NoDup; apply unique_NoDup. }
  apply NoDup_app; [|exact Hnd|].
  - repeat (constructor; [not_in|]). constructor.
  - intros n Hn Hf. rewrite Forall_forall in Hx. specialize (Hx _ Hf).
    simpl in Hn. intuition (subst; discriminate).
Qed.

Lemma assemble_columns r myflat :
  Predict.assemble nb r = Ok myflat ->
  Permutation (X_train_columns nb) (Pd.columns myflat).
Proof.
  intros Hasm. destruct run_columns as (-> & _ & _).
  rewrite assemble_normal in Hasm. bind_inv Hasm. injection Hasm as <-.
  assert (Hcols : Pd.columns (DataFrame a2 (Sk.get_feature_names (ohe nb)))
                  = Sk.get_feature_names (ohe nb)).
  { apply DataFrame_columns. eapply ohe_transform_width; eauto. }
  unfold Pd.columns in *. cbn [app map fst]. rewrite map_app, Hcols.
  cbn [map fst]. unfold fixed_columns.
  set (N := Sk.get_feature_names (ohe nb)).
  change (Permutation
            (["floor_area_sqm"; "sale_year"; "sale_month"]
               ++ (["years_remaining"; "months_remaining"] ++ ["storey"]) ++ N)
            (["floor_area_sqm"; "sale_year"; "sale_month"]
               ++ ["storey"] ++ N ++ ["years_remaining"; "months_remaining"])).
  apply Permutation_app_head.
  rewrite <- app_assoc.
  etransitivity; [apply Permutation_app_comm|].
  rewrite <- app_assoc. reflexivity.
Qed.

Lemma align_cases (myflat : Frame) :
  (forall out, Predict.align nb myflat = Ok out ->
     Pd.columns out = X_train_columns nb /\ incl out myflat) /\
  (~ Permutation (X_train_columns nb) (Pd.columns myflat) ->
     Predict.align nb myflat = Raise AssertionError \/
     Predict.align nb myflat = Raise KeyError) /\
  (Permutation (X_train_columns nb) (Pd.columns myflat) ->
     exists out, Predict.align nb myflat = Ok out).
Proof.
  destruct run_columns as (_ & Hnd & Hlen).
  unfold Predict.align. rewrite Hlen.
  destruct (Nat.eqb_spec (S (List.length (X_train_columns nb)))
                         (List.length (Pd.columns myflat) + 1)) as [Heq|Hne].
  - assert (Hl : List.length (Pd.columns myflat) = List.length (X_train_columns nb))
      by lia.
    split; [|split].
    + intros out Hsel.
      destruct (select_aligned _ _ _ Hnd Hl Hsel) as (? & ? & ?). auto.
    + intros Hperm. right.
      destruct (Pd.select myflat (X_train_columns nb)) as [out|e] eqn:Hsel.
      * destruct (select_aligned _ _ _ Hnd Hl Hsel) as (_ & ? & _). contradiction.
      * apply select_Raise in Hsel. subst e. reflexivity.
    + intros Hperm. apply select_total.
      intros n Hn. eapply Permutation_in; eauto.
  - split; [|split].
    + discriminate.
    + auto.
    + intros Hperm. apply Permutation_length in Hperm. lia.
Qed.

End Trained.

(** C1. The check before [lr.predict]. For a trained notebook and any frame
    [myflat] assembled for the flat to be priced: if the check passes, the
    frame given to [predict] has the labels of [X_train], in the order of
    [X_train], and each of its columns is a column of [myflat]; if the labels
    of [myflat] are not the labels of [X_train], each once and in any order,
    the check raises [AssertionError] (the counts differ) or [KeyError] (a
    training label is absent), which is how the code reports a schema
    mismatch, and no frame reaches [predict]; if they are, the check
    passes. And every record that the prediction cells parse and encode
    yields a frame that passes: its labels are those of [X_train] in another
    order, and the selection puts them in the order of [X_train]. *)
Theorem prediction_row_aligned_or_rejected rows nb :
  Train.run rows = Ok nb ->
  (forall myflat out, Predict.align nb myflat = Ok out ->
     Pd.columns out = X_train_columns nb /\ incl out myflat) /\
  (forall myflat, ~ Permutation (X_train_columns nb) (Pd.columns myflat) ->
     Predict.align nb myflat = Raise AssertionError \/
     Predict.align nb myflat = Raise KeyError) /\
  (forall myflat, Permutation (X_train_columns nb) (Pd.columns myflat) ->
     exists out, Predict.align nb myflat = Ok out) /\
  (forall r myflat, Predict.assemble nb r = Ok myflat ->
     exists out, Predict.model_input nb r = Ok out /\
                 Pd.columns out = X_train_columns nb).
Proof.
  intros Hrun. split; [|split; [|split]].
  - intros myflat. apply (align_cases rows nb Hrun myflat).
  - intros myflat. apply (align_cases rows nb Hrun myflat).
  - intros myflat. apply (align_cases rows nb Hrun myflat).
  - intros r myflat Hasm.
    destruct (align_cases rows nb Hrun myflat) as (Hok & _ & Hperm).
    destruct (Hperm (assemble_columns rows nb Hrun r myflat Hasm)) as [out Hout].
    exists out. unfold Predict.model_input. rewrite Hasm. cbn [bind].
    split; [exact Hout | apply (Hok _ Hout)].
Qed.

(** *** Unknown categories *)

Lemma oe_encode_Raise cats x e : Sk.oe_encode cats x = Raise e -> e = ValueError.
Proof.
  unfold Sk.oe_encode. destruct (Sk.index_of x cats); [discriminate | congruence].
Qed.

Lemma oe_encode_unknown cats x : ~ In x cats -> Sk.oe_encode cats x = Raise ValueError.
Proof.
  intros H. unfold Sk.oe_encode. apply index_of_None in H. rewrite H. reflexivity.
Qed.

Lemma oe_fit_unknown cats col x :
  In x col -> ~ In x cats -> Sk.oe_fit cats col = Raise ValueError.
Proof.
  intros Hin Hx. unfold Sk.oe_fit.
  destruct col as [|c col]; [contradiction|]. cbn [Sk.check_array bind].
  rewrite (mapM_In_Raise (Sk.oe_encode cats) (c :: col) x ValueError Hin).
  - reflexivity.
  - apply oe_encode_unknown; assumption.
  - intros a e. apply oe_encode_Raise.
Qed.

Lemma ohe_transform_one enc t f m :
  Sk.ohe_transform enc [[t]; [f]; [m]] =
  (o <- Sk.encode_row (Sk.categories_ enc) [t; f; m] ;; Ok [o]).
Proof.
  unfold Sk.ohe_transform. cbn.
  destruct (Sk.encode_row (Sk.categories_ enc) [t; f; m]); reflexivity.
Qed.

Lemma known3 (t f m : string) c0 c1 c2 :
  known [t; f; m] [c0; c1; c2] <-> In t c0 /\ In f c1 /\ In m c2.
Proof.
  unfold known. split.
  - intros H. inversion H as [|? ? ? ? Ht H1]; subst.
    inversion H1 as [|? ? ? ? Hf H2]; subst.
    inversion H2 as [|? ? ? ? Hm H3]; subst. auto.
  - intros (Ht & Hf & Hm). repeat constructor; assumption.
Qed.

Lemma failed_bind {A B} (m : result A) (k : A -> result B) :
  failed m -> failed (bind m k).
Proof. intros [e ->]. exists e. reflexivity. Qed.

Lemma failed_Raise {A} e : failed (@Raise A e).
Proof. exists e. reflexivity. Qed.

Ltac step_failed :=
  repeat match goal with
         | |- failed (Raise _) => apply failed_Raise
         | |- failed (bind ?m _) =>
             let E := fresh "E" in
             destruct m eqn:E; cbn [bind]; [|apply failed_Raise]
         end.

Lemma assemble_failed nb r :
  failed (Sk.oe_transform (oe nb) [storey_range r]) \/
  failed (Sk.ohe_transform (ohe nb) (ohe_input [r])) ->
  failed (Predict.model_input nb r).
Proof.
  intros H. unfold Predict.model_input. apply failed_bind.
  unfold Predict.assemble.
  destruct (mapM Parser.sale_year [month r]); cbn [bind]; [|apply failed_Raise].
  destruct (mapM Parser.sale_month [month r]); cbn [bind]; [|apply failed_Raise].
  destruct (Pd.drop _ ["month"]); cbn [bind]; [|apply failed_Raise].
  destruct (Sk.oe_transform (oe nb) [storey_range r]) eqn:Eo; cbn [bind];
    [|apply failed_Raise].
  destruct (Sk.ohe_transform (ohe nb) (ohe_input [r])) eqn:Eh; cbn [bind];
    [|apply failed_Raise].
  destruct H as [[e He]|[e He]]; discriminate.
Qed.

(** C3. Unknown categories are errors. For a trained notebook and a flat [r]:
    if its town, flat type or flat model was not seen when the one-hot encoder
    was fitted, [ohe.transform] raises [ValueError] and no model input is
    produced; if its storey range is not one of [storey_cat],
    [oe.transform] raises [ValueError] and no model input is produced; and a
    training corpus with such a storey range makes [oe.fit_transform] raise
    the same [ValueError], so that training fails. [ValueError] is the
    exception scikit-learn raises for an unknown category; no encoding is
    returned in any of these cases. *)
Theorem unknown_category_rejected rows nb r :
  Train.run rows = Ok nb ->
  (~ In (town r) (map town rows) \/
   ~ In (flat_type r) (map flat_type rows) \/
   ~ In (flat_model r) (map flat_model rows) ->
     Sk.ohe_transform (ohe nb) (ohe_input [r]) = Raise ValueError /\
     failed (Predict.model_input nb r)) /\
  (~ In (storey_range r) storey_cat ->
     Sk.oe_transform (oe nb) [storey_range r] = Raise ValueError /\
     failed (Predict.model_input nb r)) /\
  (forall rows',
     Exists (fun r' => ~ In (storey_range r') storey_cat) rows' ->
     Sk.oe_fit_transform storey_cat (map storey_range rows') = Raise ValueError /\
     failed (Train.run rows')).
Proof.
  intros Hrun. rewrite run_normal in Hrun. bind_inv Hrun. injection Hrun as <-.
  cbn [oe ohe].
  destruct (ohe_fit_transform_inv _ _ E3) as [Hcat _].
  destruct (oe_fit_transform_inv _ _ _ E2) as [Hoe _].
  split; [|split].
  - intros Hun.
    assert (Hr : Sk.ohe_transform (fst a3) (ohe_input [r]) = Raise ValueError).
    { cbn [ohe_input ohe_features map]. rewrite ohe_transform_one.
      unfold Sk.encode_row.
      assert (Hnd : Forall (@NoDup string) (Sk.categories_ (fst a3))).
      { rewrite Hcat. cbn [Sk.categories_ ohe_input ohe_features map].
        repeat constructor; apply unique_NoDup. }
      pose proof (encode_blocks_spec _ Hnd [town r; flat_type r; flat_model r]) as Hs.
      destruct (Sk.encode_blocks (Sk.categories_ (fst a3))
                                 [town r; flat_type r; flat_model r]) as [bs|e].
      - exfalso. destruct Hs as [Hk _]. rewrite Hcat in Hk.
        cbn [Sk.categories_ ohe_input ohe_features map] in Hk.
        apply known3 in Hk. rewrite !unique_In in Hk. tauto.
      - destruct Hs as [-> _]. reflexivity. }
    split; [exact Hr|].
    apply assemble_failed. right. cbn [ohe]. rewrite Hr. apply failed_Raise.
  - intros Hun.
    assert (Hr : Sk.oe_transform (fst a2) [storey_range r] = Raise ValueError).
    { rewrite oe_transform_one, Hoe. cbn [Sk.oe_categories_].
      apply index_of_None in Hun. rewrite Hun. reflexivity. }
    split; [exact Hr|].
    apply assemble_failed. left. cbn [oe]. rewrite Hr. apply failed_Raise.
  - intros rows' Hex. apply Exists_exists in Hex. destruct Hex as (r' & Hin & Hun).
    assert (Hr : Sk.oe_fit_transform storey_cat (map storey_range rows')
                 = Raise ValueError).
    { unfold Sk.oe_fit_transform.
      rewrite (oe_fit_unknown storey_cat _ (storey_range r')); auto.
      apply in_map. exact Hin. }
    split; [exact Hr|].
    rewrite run_normal. step_failed. discriminate.
Qed.

(** *** Decimal numerals *)

Ltac digit_cases d H :=
  let H' := fresh in
  assert (H' : d = 0 \/ d = 1 \/ d = 2 \/ d = 3 \/ d = 4 \/
               d = 5 \/ d = 6 \/ d = 7 \/ d = 8 \/ d = 9)
    by (unfold is_digit in H; lia);
  clear H;
  destruct H' as [H'|[H'|[H'|[H'|[H'|[H'|[H'|[H'|[H'|H']]]]]]]]]; subst d.

Lemma digit_val_char d : is_digit d -> Py.digit_val (digit_char d) = Some d.
Proof. intros H. digit_cases d H; reflexivity. Qed.

Lemma isspace_digit d : is_digit d -> Py.isspace (digit_char d) = false.
Proof. intros H. digit_cases d H; reflexivity. Qed.

Lemma hyphen_digit d : is_digit d -> Ascii.eqb "-" (digit_char d) = false.
Proof. intros H. digit_cases d H; reflexivity. Qed.

Lemma space_digit d : is_digit d -> Ascii.eqb " " (digit_char d) = false.
Proof. intros H. digit_cases d H; reflexivity. Qed.

Lemma numeral_chars (p : ascii -> bool) ds :
  (forall d, is_digit d -> p (digit_char d) = false) ->
  Forall is_digit ds -> all_chars (fun c => negb (p c)) (numeral ds) = true.
Proof.
  intros Hp. induction 1 as [|d ds Hd _ IH]; simpl; [reflexivity|].
  rewrite (Hp _ Hd), IH. reflexivity.
Qed.

Lemma fields_nonnil p s : Py.fields p s <> [].
Proof.
  destruct s as [|c r]; simpl; [discriminate|].
  destruct (p c); [discriminate|]. destruct (Py.fields p r); discriminate.
Qed.

Lemma fields_cons p w c r :
  all_chars (fun c => negb (p c)) w = true -> p c = true ->
  Py.fields p (w ++ String c r) = w :: Py.fields p r.
Proof.
  intros Hw Hc. induction w as [|a w IH]; simpl in *.
  - rewrite Hc. reflexivity.
  - apply andb_prop in Hw. destruct Hw as [Ha Hw].
    apply negb_true_iff in Ha. rewrite Ha, (IH Hw). reflexivity.
Qed.

Lemma fields_last p w :
  all_chars (fun c => negb (p c)) w = true -> Py.fields p w = [w].
Proof.
  induction w as [|a w IH]; simpl; [reflexivity|]. intros Hw.
  apply andb_prop in Hw. destruct Hw as [Ha Hw].
  apply negb_true_iff in Ha. rewrite Ha, (IH Hw). reflexivity.
Qed.

Lemma lstrip_word w :
  all_chars (fun c => negb (Py.isspace c)) w = true -> Py.lstrip w = w.
Proof.
  destruct w as [|a w]; simpl; [reflexivity|]. intros Hw.
  apply andb_prop in Hw. destruct Hw as [Ha _].
  apply negb_true_iff in Ha. rewrite Ha. reflexivity.
Qed.

Lemma rstrip_word w :
  all_chars (fun c => negb (Py.isspace c)) w = true -> Py.rstrip w = w.
Proof.
  induction w as [|a w IH]; simpl; [reflexivity|]. intros Hw.
  apply andb_prop in Hw. destruct Hw as [Ha Hw].
  apply negb_true_iff in Ha. rewrite (IH Hw), Ha.
  destruct w; reflexivity.
Qed.

Lemma strip_word w :
  all_chars (fun c => negb (Py.isspace c)) w = true -> Py.strip w = w.
Proof.
  intros Hw. unfold Py.strip. rewrite (rstrip_word _ Hw). apply lstrip_word, Hw.
Qed.

Lemma digits_numeral ds : Forall is_digit ds -> forall acc,
  Py.digits acc true (numeral ds) = Some (fold_left (fun a d => 10 * a + d) ds acc).
Proof.
  induction 1 as [|d ds Hd _ IH]; intros acc; simpl; [reflexivity|].
  rewrite (digit_val_char _ Hd). apply IH.
Qed.

Lemma int_numeral ds :
  ds <> [] -> Forall is_digit ds -> Py.int (numeral ds) = Ok (number ds).
Proof.
  intros Hne Hds. unfold Py.int.
  rewrite strip_word by (apply numeral_chars; [apply isspace_digit | assumption]).
  destruct ds as [|d ds]; [congruence|].
  inversion Hds as [|? ? Hd Hds']; subst.
  assert (Hbody : Py.digits 0 false (numeral (d :: ds)) = Some (number (d :: ds))).
  { cbn [numeral fold_right Py.digits]. rewrite (digit_val_char _ Hd).
    apply digits_numeral. assumption. }
  cbn [numeral fold_right] in *. fold (numeral ds) in *.
  revert Hbody. generalize (number (d :: ds)) as z. generalize (numeral ds) as r.
  intros r z Hbody.
  digit_cases d Hd;
    match type of Hbody with
    | context [digit_char ?k] =>
        let c := eval vm_compute in (digit_char k) in
        change (digit_char k) with c in *
    end; cbv beta iota; rewrite Hbody; reflexivity.
Qed.

(** *** The lease column *)

Lemma numeral_nonempty ds : ds <> [] -> Py.nonempty (numeral ds) = true.
Proof. destruct ds; [congruence | reflexivity]. Qed.

Lemma numeral_no_space ds :
  Forall is_digit ds ->
  all_chars (fun c => negb (Py.isspace c)) (numeral ds) = true.
Proof. apply numeral_chars, isspace_digit. Qed.

Lemma numeral_no_blank ds :
  Forall is_digit ds ->
  all_chars (fun c => negb (Ascii.eqb " " c)) (numeral ds) = true.
Proof. apply numeral_chars, space_digit. Qed.

Lemma numeral_no_hyphen ds :
  Forall is_digit ds ->
  all_chars (fun c => negb (Ascii.eqb "-" c)) (numeral ds) = true.
Proof. apply numeral_chars, hyphen_digit. Qed.

Lemma split_full ys ms :
  ys <> [] -> ms <> [] -> Forall is_digit ys -> Forall is_digit ms ->
  Py.split (numeral ys ++ " years " ++ numeral ms ++ " months")
  = [numeral ys; "years"; numeral ms; "months"].
Proof.
  intros Hy Hm Dy Dm. unfold Py.split.
  change (numeral ys ++ " years " ++ numeral ms ++ " months")%string
    with (numeral ys ++ String " " ("years" ++ String " " (numeral ms ++ String " " "months")))%string.
  rewrite fields_cons by (auto using numeral_no_space).
  rewrite fields_cons by reflexivity.
  rewrite fields_cons by (auto using numeral_no_space).
  rewrite fields_last by reflexivity.
  cbn [filter]. rewrite !numeral_nonempty by assumption. reflexivity.
Qed.

Lemma split_sep_full ys ms :
  Forall is_digit ys -> Forall is_digit ms ->
  Py.split_sep " " (numeral ys ++ " years " ++ numeral ms ++ " months")
  = [numeral ys; "years"; numeral ms; "months"].
Proof.
  intros Dy Dm. unfold Py.split_sep.
  change (numeral ys ++ " years " ++ numeral ms ++ " months")%string
    with (numeral ys ++ String " " ("years" ++ String " " (numeral ms ++ String " " "months")))%string.
  rewrite fields_cons by (auto using numeral_no_blank).
  rewrite fields_cons by reflexivity.
  rewrite fields_cons by (auto using numeral_no_blank).
  rewrite fields_last by reflexivity.
  reflexivity.
Qed.

(** The form with both parts is read as written. *)
Lemma lease_years_months ys ms :
  ys <> [] -> ms <> [] -> Forall is_digit ys -> Forall is_digit ms ->
  Parser.remaining_lease (numeral ys ++ " years " ++ numeral ms ++ " months")
  = Ok (number ys, number ms).
Proof.
  intros Hy Hm Dy Dm.
  unfold Parser.remaining_lease, Parser.years_remaining, Parser.months_remaining.
  rewrite split_full, split_sep_full by assumption.
  change (Py.getitem [numeral ys; "years"; numeral ms; "months"] 0)
    with (Ok (numeral ys)).
  change (Py.getitem [numeral ys; "years"; numeral ms; "months"] (-2))
    with (Ok (numeral ms)).
  cbn [bind]. rewrite !int_numeral by assumption. reflexivity.
Qed.

(** The form without months: the second field from the end is the number of
    years again. *)
Lemma lease_years_only ys :
  ys <> [] -> Forall is_digit ys ->
  Parser.remaining_lease (numeral ys ++ " years") = Ok (number ys, number ys).
Proof.
  intros Hy Dy.
  unfold Parser.remaining_lease, Parser.years_remaining, Parser.months_remaining.
  unfold Py.split, Py.split_sep.
  change (numeral ys ++ " years")%string with (numeral ys ++ String " " "years")%string.
  rewrite !fields_cons by (auto using numeral_no_space, numeral_no_blank).
  rewrite !fields_last by reflexivity.
  cbn [filter]. rewrite numeral_nonempty by assumption.
  change (Py.getitem (numeral ys :: _) 0) with (Ok (numeral ys)).
  change (Py.getitem [numeral ys; "years"] (-2)) with (Ok (numeral ys)).
  cbn [bind]. rewrite !int_numeral by assumption. reflexivity.
Qed.

(** C2. The lease text ["99 years"], without a months part, is read as 99
    years and 99 months: in [x.split(" ")[-2]] the second field from the end
    is the number of years again. A text with both parts is read as
    written. *)
Theorem lease_without_months_repeats_years :
  Parser.remaining_lease "99 years" = Ok (99, 99) /\
  Parser.remaining_lease "61 years 04 months" = Ok (61, 4).
Proof. split; reflexivity. Qed.

Lemma getitem_0 {A} (l : list A) :
  Py.getitem l 0 = match hd_error l with Some a => Ok a | None => Raise IndexError end.
Proof.
  destruct l as [|a l]; [reflexivity|].
  unfold Py.getitem. cbn [List.length hd_error].
  replace (0 <? 0) with false by reflexivity. cbv beta iota.
  replace (Z.of_nat (S (List.length l)) <=? 0) with false
    by (symmetry; apply Z.leb_gt; lia).
  reflexivity.
Qed.

Lemma getitem_short {A} (l : list A) :
  (List.length l < 2)%nat -> Py.getitem l (-2) = Raise IndexError.
Proof.
  intros H. unfold Py.getitem. change (-2 <? 0) with true. cbv beta iota.
  replace (Z.of_nat (List.length l) + -2 <? 0) with true
    by (symmetry; apply Z.ltb_lt; lia).
  reflexivity.
Qed.


Lemma int_Raise s e : Py.int s = Raise e -> e = ValueError.
Proof.
  unfold Py.int.
  match goal with |- match ?b with _ => _ end = _ -> _ => destruct b end;
    [discriminate | congruence].
Qed.















(** *** The month of sale *)

Lemma directive_m_two e f :
  is_digit e -> is_digit f -> 1 <= 10 * e + f <= 12 ->
  Datetime.directive_m (numeral [e; f]) = Some (10 * e + f).
Proof.
  intros He Hf HM. unfold numeral, fold_right, Datetime.directive_m.
  rewrite (digit_val_char _ He), (digit_val_char _ Hf).
  assert (Hc : (e = 0 /\ 1 <= f) \/ (e = 1 /\ f <= 2))
    by (unfold is_digit in *; lia).
  destruct Hc as [[-> H1]|[-> H2]].
  - replace (1 <=? f) with true by (symmetry; apply Z.leb_le; lia).
    f_equal; lia.
  - replace (f <=? 2) with true by (symmetry; apply Z.leb_le; lia).
    reflexivity.
Qed.

Lemma not_nat_string a r :
  is_digit a -> Datetime.missing (String (digit_char a) r) = false.
Proof. intros H. digit_cases a H; reflexivity. Qed.

Lemma month_text_lambdas a b c d e f :
  is_digit a -> is_digit b -> is_digit c -> is_digit d ->
  is_digit e -> is_digit f ->
  Parser.sale_year (sale_month_text a b c d e f)
    = Ok (1000 * a + 100 * b + 10 * c + d) /\
  Parser.sale_month (sale_month_text a b c d e f) = Ok (10 * e + f).
Proof.
  intros Ha Hb Hc Hd He Hf.
  assert (D4 : Forall is_digit [a; b; c; d]) by (repeat (apply Forall_cons; [assumption|]); apply Forall_nil).
  assert (D2 : Forall is_digit [e; f]) by (repeat (apply Forall_cons; [assumption|]); apply Forall_nil).
  assert (Hsplit : Py.split_sep "-" (sale_month_text a b c d e f)
                   = [numeral [a; b; c; d]; numeral [e; f]]).
  { unfold Py.split_sep, sale_month_text.
    change (numeral [a; b; c; d] ++ "-" ++ numeral [e; f])%string
      with (numeral [a; b; c; d] ++ String "-" (numeral [e; f]))%string.
    rewrite fields_cons by (auto using numeral_no_hyphen).
    rewrite fields_last by (auto using numeral_no_hyphen). reflexivity. }
  split.
  - unfold Parser.sale_year. rewrite Hsplit.
    change (Py.getitem [numeral [a; b; c; d]; numeral [e; f]] 0)
      with (Ok (numeral [a; b; c; d])).
    cbn [bind]. rewrite int_numeral by (assumption || discriminate).
    f_equal. unfold number. cbn [fold_left]. lia.
  - unfold Parser.sale_month. rewrite Hsplit.
    change (Py.getitem [numeral [a; b; c; d]; numeral [e; f]] (-1))
      with (Ok (numeral [e; f])).
    cbn [bind]. rewrite int_numeral by (assumption || discriminate).
    f_equal.
Qed.

Lemma month_text_reader a b c d e f :
  is_digit a -> is_digit b -> is_digit c -> is_digit d ->
  is_digit e -> is_digit f ->
  1 <= 10 * e + f <= 12 ->
  Datetime.to_datetime (sale_month_text a b c d e f)
  = if Datetime.in_bounds (1000 * a + 100 * b + 10 * c + d) (10 * e + f)
    then Ok (Some (1000 * a + 100 * b + 10 * c + d, 10 * e + f))
    else Raise OutOfBoundsDatetime.
Proof.
  intros Ha Hb Hc Hd He Hf HM.
  unfold Datetime.to_datetime.
  change (sale_month_text a b c d e f)
    with (String (digit_char a) (String (digit_char b) (String (digit_char c)
           (String (digit_char d) (String "-" (numeral [e; f])))))).
  rewrite not_nat_string by assumption.
  cbn [Datetime.strptime]. unfold Datetime.directive_Y.
  rewrite !digit_val_char by assumption.
  rewrite directive_m_two by assumption. reflexivity.
Qed.

(** C5. The two paths on a month text [YYYY-MM]. For four digits [a b c d]
    and two digits [e f] that name a month from 01 to 12, the prediction path
    (the two [split("-")] lambdas) gives the year [abcd] and the month [ef],
    whatever the year. The training path ([pd.to_datetime] with the format
    [%Y-%m], then [.dt.year] and [.dt.month]) gives the same year and month
    when the month lies between 1677-10 and 2262-04, the months a nanosecond
    timestamp can hold, and raises [OutOfBoundsDatetime] for every other
    year and month: there the two paths part. *)
Theorem sale_month_paths_compared a b c d e f :
  is_digit a -> is_digit b -> is_digit c -> is_digit d ->
  is_digit e -> is_digit f ->
  1 <= 10 * e + f <= 12 ->
  Parser.sale_year (sale_month_text a b c d e f)
    = Ok (1000 * a + 100 * b + 10 * c + d) /\
  Parser.sale_month (sale_month_text a b c d e f) = Ok (10 * e + f) /\
  (1677 * 12 + 10 <= (1000 * a + 100 * b + 10 * c + d) * 12 + (10 * e + f)
     <= 2262 * 12 + 4 ->
   Datetime.to_datetime (sale_month_text a b c d e f)
     = Ok (Some (1000 * a + 100 * b + 10 * c + d, 10 * e + f))) /\
  (~ (1677 * 12 + 10 <= (1000 * a + 100 * b + 10 * c + d) * 12 + (10 * e + f)
        <= 2262 * 12 + 4) ->
   Datetime.to_datetime (sale_month_text a b c d e f)
     = Raise OutOfBoundsDatetime).
Proof.
  intros Ha Hb Hc Hd He Hf HM.
  destruct (month_text_lambdas a b c d e f Ha Hb Hc Hd He Hf) as [Hy Hm].
  pose proof (month_text_reader a b c d e f Ha Hb Hc Hd He Hf HM) as Hread.
  split; [exact Hy|]. split; [exact Hm|].
  unfold Datetime.in_bounds in Hread. split; intros HB; rewrite Hread.
  - replace (_ && _) with true; [reflexivity|].
    symmetry. apply andb_true_intro. split; apply Z.leb_le; lia.
  - replace (_ && _) with false; [reflexivity|].
    symmetry. apply andb_false_iff.
    destruct (Z.leb_spec (1677 * 12 + 10)
                ((1000 * a + 100 * b + 10 * c + d) * 12 + (10 * e + f)));
      [right; apply Z.leb_gt; lia | left; reflexivity].
Qed.

Lemma sale_month_paths_compared_witness :
  (Parser.sale_year "9999-12" = Ok 9999 /\
   Parser.sale_month "9999-12" = Ok 12 /\
   Datetime.to_datetime "9999-12" = Raise OutOfBoundsDatetime) /\
  (Parser.sale_year "2017-03" = Ok 2017 /\
   Parser.sale_month "2017-03" = Ok 3 /\
   Datetime.to_datetime "2017-03" = Ok (Some (2017, 3))).
Proof.
  split.
  - destruct (sale_month_paths_compared 9 9 9 9 1 2) as (Hy & Hm & _ & Hout);
      try (unfold is_digit; lia).
    split; [exact Hy|]. split; [exact Hm|]. apply Hout. lia.
  - destruct (sale_month_paths_compared 2 0 1 7 0 3) as (Hy & Hm & Hin & _);
      try (unfold is_digit; lia).
    split; [exact Hy|]. split; [exact Hm|]. apply Hin. lia.
Defined.

(** *** Missing values *)

Lemma same_text_map rows rows' :
  Forall2 same_text rows rows' ->
  map month rows = map month rows' /\
  map remaining_lease rows = map remaining_lease rows' /\
  map storey_range rows = map storey_range rows' /\
  ohe_input rows = ohe_input rows'.
Proof.
  unfold ohe_input, ohe_features. cbn [map].
  induction 1 as [|r r' rows rows' (Hm & Ht & Hf & Hs & Hfm & Hl) _ IH];
    [repeat split|].
  destruct IH as (IHm & IHl & IHs & IHo). injection IHo as IHt IHf IHfm.
  cbn [map]. repeat split; congruence.
Qed.

(** C9, as the code has it. Nothing is validated: after parsing and encoding
    the notebook computes, for display, the number of missing cells of every
    column of the frame, and goes on. Whenever the training cells run
    through, the counts shown for [block], [street_name], [floor_area_sqm]
    and [resale_price] are the numbers of missing cells of these columns, and
    the cells run through as well on every corpus with the same six text
    columns, whatever its other cells are, missing ones included. *)
Theorem nulls_counted_never_rejected rows nb :
  Train.run rows = Ok nb ->
  (In ("block", count_na (map block rows)) (isna_shown nb) /\
   In ("street_name", count_na (map street_name rows)) (isna_shown nb) /\
   In ("floor_area_sqm", count_na (map floor_area_sqm rows)) (isna_shown nb) /\
   In ("resale_price", count_na (map resale_price rows)) (isna_shown nb)) /\
  (forall rows', Forall2 same_text rows rows' ->
                 exists nb', Train.run rows' = Ok nb').
Proof.
  intros Hrun. rewrite run_normal in Hrun. bind_inv Hrun. injection Hrun as <-.
  split.
  - cbn [isna_shown Pd.isna_sum map app fst snd In]. unfold count_na. tauto.
  - intros rows' Hsame.
    destruct (same_text_map _ _ Hsame) as (Hm & Hl & Hs & Ho).
    rewrite run_normal, <- Hm, <- Hl, <- Hs, <- Ho, E, E0, E1, E2, E3.
    cbn [bind]. eauto.
Qed.

Lemma prediction_row_aligned_or_rejected_witness :
  Pd.columns Examples.assembled <> X_train_columns Examples.fitted /\
  (exists out, Predict.model_input Examples.fitted Examples.myflat = Ok out /\
               Pd.columns out = X_train_columns Examples.fitted) /\
  Predict.align Examples.fitted (tl Examples.assembled) = Raise AssertionError /\
  Predict.align Examples.fitted Examples.renamed = Raise KeyError.
Proof.
  pose proof (prediction_row_aligned_or_rejected
                Examples.corpus Examples.fitted run_fitted)
    as (_ & Hbad & _ & Hrec).
  split; [vm_compute; discriminate|]. split; [|split].
  - apply (Hrec Examples.myflat Examples.assembled).
    vm_compute. reflexivity.
  - assert (Hn : ~ Permutation (X_train_columns Examples.fitted)
                               (Pd.columns (tl Examples.assembled))).
    { intros P. apply Permutation_length in P. vm_compute in P. discriminate P. }
    destruct (Hbad _ Hn) as [H|H]; [exact H|].
    vm_compute in H. discriminate H.
  - assert (Hn : ~ Permutation (X_train_columns Examples.fitted)
                               (Pd.columns Examples.renamed)).
    { intros P.
      assert (Hin : In "floor_area_sqm" (Pd.columns Examples.renamed)).
      { eapply Permutation_in; [exact P|]. vm_compute. auto. }
      revert Hin. not_in. }
    destruct (Hbad _ Hn) as [H|H]; [|exact H].
    vm_compute in H. discriminate H.
Defined.

Lemma unknown_category_rejected_witness :
  Sk.ohe_transform (ohe Examples.fitted) (ohe_input [Examples.unseen_model])
    = Raise ValueError /\
  failed (Predict.model_input Examples.fitted Examples.unseen_model) /\
  Sk.oe_transform (oe Examples.fitted) [storey_range Examples.unseen_storey]
    = Raise ValueError /\
  Sk.oe_fit_transform storey_cat (map storey_range [Examples.unseen_storey])
    = Raise ValueError.
Proof.
  pose proof (proj1 (unknown_category_rejected
                       Examples.corpus Examples.fitted Examples.unseen_model
                       run_fitted)) as Hohe.
  pose proof (proj2 (unknown_category_rejected
                       Examples.corpus Examples.fitted Examples.unseen_storey
                       run_fitted)) as [Hoe Hfit].
  assert (Hm : ~ In (flat_model Examples.unseen_model)
                    (map flat_model Examples.corpus)) by not_in.
  assert (Hs : ~ In (storey_range Examples.unseen_storey) storey_cat) by not_in.
  split; [exact (proj1 (Hohe (or_intror (or_intror Hm))))|].
  split; [exact (proj2 (Hohe (or_intror (or_intror Hm))))|].
  split; [exact (proj1 (Hoe Hs))|].
  refine (proj1 (Hfit [Examples.unseen_storey] _)).
  apply Exists_cons_hd. exact Hs.
Defined.

Lemma nulls_counted_never_rejected_witness :
  In ("block", 1%nat) (isna_shown Examples.fitted) /\
  exists nb', Train.run Examples.nulled = Ok nb'.
Proof.
  pose proof (nulls_counted_never_rejected Examples.corpus Examples.fitted
                                           run_fitted) as [[Hblock _] Hsame].
  split; [exact Hblock|].
  apply Hsame. unfold Examples.nulled, Examples.corpus. cbn [map].
  repeat (apply Forall2_cons; [repeat split|]). apply Forall2_nil.
Defined.

(** C9, as stated, fails: a corpus in which every record has missing cells is
    turned into features, and a flat with missing cells into a model input. *)
Lemma null_fields_not_rejected :
  forallb has_null Examples.nulled = true /\
  (exists nb, Train.run Examples.nulled = Ok nb) /\
  has_null Examples.null_flat = true /\
  (exists out, Predict.model_input Examples.fitted Examples.null_flat = Ok out).
Proof.
  split; [reflexivity|]. split; [vm_compute; eexists; reflexivity|].
  split; [reflexivity|]. vm_compute; eexists; reflexivity.
Qed.

(** ** Further properties of the training and prediction cells *)

(** *** Row-by-row loops *)

Lemma mapM_Ok_iff {A B} (f : A -> result B) l :
  (exists out, mapM f l = Ok out) <-> Forall (fun a => exists b, f a = Ok b) l.
Proof.
  split.
  - intros [out H]. apply mapM_Forall2 in H.
    induction H as [|a b l out Hab _ IH]; constructor; eauto.
  - induction 1 as [|a l [b Hb] _ [out IH]]; simpl; [eauto|].
    rewrite Hb, IH. cbn [bind]. eauto.
Qed.

Lemma mapM_length {A B} (f : A -> result B) l out :
  mapM f l = Ok out -> List.length out = List.length l.
Proof.
  intros H. apply mapM_Forall2 in H. symmetry. eapply Forall2_length; eauto.
Qed.

Lemma mapM_check_array {A} (X : list (list A)) :
  Forall (fun c => c <> []) X -> exists u, mapM Sk.check_array X = Ok u.
Proof.
  intros H. apply mapM_Ok_iff. eapply Forall_impl; [|exact H].
  intros [|a c] Hc; [congruence|]. simpl. eauto.
Qed.

(** *** Tables by columns and by rows *)

Lemma zip_cons_Forall2 {A} (P : list A -> Prop) (Q : A -> Prop) xs ls :
  List.length xs = List.length ls -> Forall Q xs -> Forall P ls ->
  Forall (fun l => exists x r, l = x :: r /\ Q x /\ P r) (Pd.zip_cons xs ls).
Proof.
  revert ls. induction xs as [|x xs IH]; intros [|l ls] Hlen Hx Hl; simpl;
    try constructor; try discriminate.
  - inversion Hx; inversion Hl; subst. eauto 6.
  - inversion Hx; inversion Hl; subst. apply IH; auto.
Qed.

Lemma transpose_known n (X : list (list string)) :
  Forall (fun c => List.length c = n) X ->
  Forall (fun row => known row (map Sk.unique X)) (Pd.transpose n X).
Proof.
  unfold Pd.transpose. induction 1 as [|c X Hc HX IH]; simpl.
  - apply Forall_forall. intros row Hrow. apply repeat_spec in Hrow. subst.
    constructor.
  - pose proof (transpose_length n X HX) as Hlen. unfold Pd.transpose in Hlen.
    assert (Hz := zip_cons_Forall2
                    (fun row => known row (map Sk.unique X))
                    (fun x => In x c) c _ (eq_trans Hc (eq_sym Hlen))
                    (proj2 (Forall_forall _ _) (fun x H => H)) IH).
    eapply Forall_impl; [|exact Hz].
    intros row (x & r & -> & Hx & Hr). constructor; [|exact Hr].
    apply unique_In. exact Hx.
Qed.

Lemma map_unique_NoDup X : Forall (@NoDup string) (map Sk.unique X).
Proof.
  apply Forall_forall. intros c Hc. apply in_map_iff in Hc.
  destruct Hc as (col & <- & _). apply unique_NoDup.
Qed.

Lemma encode_row_known cats row :
  Forall (@NoDup string) cats -> known row cats ->
  exists o, Sk.encode_row cats row = Ok o.
Proof.
  intros Hnd Hk. unfold Sk.encode_row.
  pose proof (encode_blocks_spec cats Hnd row) as Hs.
  destruct (Sk.encode_blocks cats row) as [bs|e]; cbn [bind]; [eauto|].
  destruct Hs as [_ Hs]. contradiction.
Qed.

(** [fit_transform] accepts every table and returns one encoded row per row
    of the table, each as wide as the list of feature names. *)
Lemma ohe_fit_transform_table n X :
  table n X ->
  exists enc rows,
    Sk.ohe_fit_transform X = Ok (enc, rows) /\
    Sk.categories_ enc = map Sk.unique X /\
    List.length rows = n /\
    Forall (fun r => List.length r = List.length (Sk.get_feature_names enc)) rows.
Proof.
  intros (Hn & HX & Hlen).
  assert (Hne : Forall (fun c : list string => c <> []) X).
  { eapply Forall_impl; [|exact Hlen]. intros c Hc ->. simpl in Hc. congruence. }
  destruct (mapM_check_array X Hne) as [u Hu].
  assert (Hhd : List.length (hd [] X) = n).
  { destruct X as [|c X]; [congruence|]. inversion Hlen; subst. reflexivity. }
  assert (Hrows : exists rows,
             mapM (Sk.encode_row (map Sk.unique X)) (Pd.transpose n X) = Ok rows).
  { apply mapM_Ok_iff. eapply Forall_impl; [|apply (transpose_known n X Hlen)].
    intros row Hrow. apply encode_row_known; [apply map_unique_NoDup | exact Hrow]. }
  destruct Hrows as [rows Hrows].
  assert (Ht : Sk.ohe_transform {| Sk.categories_ := map Sk.unique X |} X = Ok rows).
  { unfold Sk.ohe_transform. rewrite Hu, Hhd. cbn [bind Sk.categories_]. exact Hrows. }
  exists {| Sk.categories_ := map Sk.unique X |}, rows.
  split; [|split; [reflexivity|split]].
  - unfold Sk.ohe_fit_transform, Sk.ohe_fit. rewrite Hu. cbn [bind].
    rewrite Ht. reflexivity.
  - rewrite (mapM_length _ _ _ Hrows). apply transpose_length. exact Hlen.
  - eapply ohe_transform_width. exact Ht.
Qed.

(** *** When the training cells run through *)

Lemma remaining_lease_Ok x :
  (exists ym, Parser.remaining_lease x = Ok ym) <->
  (exists y, Parser.years_remaining x = Ok y) /\
  (exists m, Parser.months_remaining x = Ok m).
Proof.
  unfold Parser.remaining_lease. split.
  - intros [ym H]. bind_inv H. eauto.
  - intros [[y Hy] [m Hm]]. rewrite Hy, Hm. cbn [bind]. eauto.
Qed.

Lemma oe_encode_Ok cats x : (exists z, Sk.oe_encode cats x = Ok z) <-> In x cats.
Proof.
  unfold Sk.oe_encode. split.
  - intros [z H]. destruct (Sk.index_of x cats) as [i|] eqn:E; [|discriminate].
    eapply nth_error_In, index_of_In; eauto.
  - intros H. destruct (Sk.index_of x cats) as [i|] eqn:E; [eauto|].
    apply index_of_None in E. contradiction.
Qed.

Lemma oe_fit_transform_Ok cats col :
  (exists p, Sk.oe_fit_transform cats col = Ok p) <->
  col <> [] /\ Forall (fun x => In x cats) col.
Proof.
  unfold Sk.oe_fit_transform, Sk.oe_fit, Sk.oe_transform. cbn [Sk.oe_categories_].
  split.
  - intros [p H]. destruct col as [|x col]; [discriminate|]. split; [discriminate|].
    cbn [Sk.check_array bind] in H.
    destruct (mapM (Sk.oe_encode cats) (x :: col)) as [codes|] eqn:E;
      [|discriminate].
    assert (Hall : Forall (fun a => exists b, Sk.oe_encode cats a = Ok b) (x :: col))
      by (apply mapM_Ok_iff; eauto).
    eapply Forall_impl; [|exact Hall]. intros a Ha. apply oe_encode_Ok. exact Ha.
  - intros [Hne Hall]. destruct col as [|x col]; [congruence|].
    cbn [Sk.check_array bind].
    assert (Hm : exists codes, mapM (Sk.oe_encode cats) (x :: col) = Ok codes).
    { apply mapM_Ok_iff. eapply Forall_impl; [|exact Hall].
      intros a Ha. apply oe_encode_Ok. exact Ha. }
    destruct Hm as [codes Hm]. rewrite Hm. cbn [bind Sk.oe_categories_].
    rewrite Hm. cbn [bind]. eauto.
Qed.

Lemma ohe_input_table rows :
  rows <> [] -> table (List.length rows) (ohe_input rows).
Proof.
  intros Hne. unfold table, ohe_input, ohe_features. cbn [map].
  split; [destruct rows; [congruence | discriminate]|].
  split; [discriminate|].
  repeat (apply Forall_cons; [apply length_map|]). apply Forall_nil.
Qed.

Lemma ohe_fit_transform_rows rows :
  rows <> [] -> exists q, Sk.ohe_fit_transform (ohe_input rows) = Ok q.
Proof.
  intros Hne.
  destruct (ohe_fit_transform_table _ _ (ohe_input_table rows Hne))
    as (enc & out & H & _). eauto.
Qed.

Lemma run_Ok_iff rows :
  (exists nb, Train.run rows = Ok nb) <-> rows <> [] /\ Forall parses rows.
Proof.
  rewrite run_normal. split.
  - intros [nb H]. bind_inv H.
    assert (Hd : Forall (fun s => exists d, Datetime.to_datetime s = Ok d)
                        (map month rows)) by (apply mapM_Ok_iff; eauto).
    assert (Hy : Forall (fun s => exists z, Parser.years_remaining s = Ok z)
                        (map remaining_lease rows)) by (apply mapM_Ok_iff; eauto).
    assert (Hm : Forall (fun s => exists z, Parser.months_remaining s = Ok z)
                        (map remaining_lease rows)) by (apply mapM_Ok_iff; eauto).
    assert (Hs : map storey_range rows <> [] /\
                 Forall (fun x => In x storey_cat) (map storey_range rows))
      by (apply oe_fit_transform_Ok; eauto).
    destruct Hs as [Hne Hs].
    rewrite Forall_map in Hd, Hy, Hm, Hs.
    split; [intros ->; apply Hne; reflexivity|].
    rewrite Forall_forall in *. intros r Hr.
    split; [auto|]. split; [|auto]. apply remaining_lease_Ok. auto.
  - intros [Hne Hall].
    assert (Hd : exists sd, mapM Datetime.to_datetime (map month rows) = Ok sd).
    { apply mapM_Ok_iff. rewrite Forall_map. eapply Forall_impl; [|exact Hall].
      intros r Hr. apply Hr. }
    assert (Hy : exists ys, mapM Parser.years_remaining (map remaining_lease rows) = Ok ys).
    { apply mapM_Ok_iff. rewrite Forall_map. eapply Forall_impl; [|exact Hall].
      intros r (_ & Hr & _). apply remaining_lease_Ok in Hr. apply Hr. }
    assert (Hm : exists ms, mapM Parser.months_remaining (map remaining_lease rows) = Ok ms).
    { apply mapM_Ok_iff. rewrite Forall_map. eapply Forall_impl; [|exact Hall].
      intros r (_ & Hr & _). apply remaining_lease_Ok in Hr. apply Hr. }
    assert (Hs : exists p, Sk.oe_fit_transform storey_cat (map storey_range rows) = Ok p).
    { apply oe_fit_transform_Ok. split.
      - destruct rows; [congruence | discriminate].
      - rewrite Forall_map. eapply Forall_impl; [|exact Hall].
        intros r Hr. apply Hr. }
    destruct Hd as [sd ->], Hy as [ys ->], Hm as [ms ->], Hs as [p ->].
    destruct (ohe_fit_transform_rows rows Hne) as [q ->].
    cbn [bind]. eauto.
Qed.

(** *** The indicator columns, written out *)

Lemma transpose_map {A K B} (h : A -> K -> B) keys rows :
  Pd.transpose (List.length keys) (map (fun r => map (h r) keys) rows)
  = map (fun k => map (fun r => h r k) rows) keys.
Proof.
  unfold Pd.transpose. induction rows as [|r rows IH]; cbn [map fold_right].
  - induction keys as [|k keys IHk]; simpl; [reflexivity | f_equal; exact IHk].
  - rewrite IH. clear IH.
    induction keys as [|k keys IHk]; simpl; [reflexivity | f_equal; exact IHk].
Qed.

Lemma combine_map {K A B} (a : K -> A) (b : K -> B) keys :
  combine (map a keys) (map b keys) = map (fun k => (a k, b k)) keys.
Proof. induction keys; simpl; congruence. Qed.

Lemma transpose_ohe_input rows :
  Pd.transpose (List.length (hd [] (ohe_input rows))) (ohe_input rows)
  = map (fun r => [town r; flat_type r; flat_model r]) rows.
Proof.
  unfold ohe_input, ohe_features, Pd.transpose. cbn [map hd fold_right].
  rewrite length_map.
  induction rows as [|r rows IH]; [reflexivity|].
  cbn [map List.length repeat Pd.zip_cons]. f_equal. exact IH.
Qed.

Lemma encode_row_three c0 c1 c2 t f m o :
  Sk.encode_row [c0; c1; c2] [t; f; m] = Ok o ->
  o = Sk.onehot c0 t ++ Sk.onehot c1 f ++ Sk.onehot c2 m.
Proof.
  unfold Sk.encode_row, Sk.encode_blocks, Sk.encode_value.
  destruct (Sk.index_of t c0); cbn [bind]; [|discriminate].
  destruct (Sk.index_of f c1); cbn [bind]; [|discriminate].
  destruct (Sk.index_of m c2); cbn [bind]; [|discriminate].
  intros H; injection H as <-. cbn [List.concat]. rewrite app_nil_r. reflexivity.
Qed.

Lemma ohe_transform_rows c0 c1 c2 rows out :
  Sk.ohe_transform {| Sk.categories_ := [c0; c1; c2] |} (ohe_input rows) = Ok out ->
  out = map (fun r => map (key_value r) (keys c0 c1 c2)) rows.
Proof.
  unfold Sk.ohe_transform. intros H. bind_inv H.
  rewrite transpose_ohe_input in H. cbn [Sk.categories_] in H.
  apply mapM_Forall2 in H. clear E.
  remember (map (fun r => [town r; flat_type r; flat_model r]) rows) as T eqn:HT.
  revert rows HT. induction H as [|row o T out Ho _ IH]; intros [|r rows] HT;
    try discriminate; [reflexivity|].
  cbn [map] in HT. injection HT as -> ->. cbn [map]. f_equal; [|apply IH; reflexivity].
  apply encode_row_three in Ho. subst o. unfold keys.
  rewrite !map_app, !map_map. reflexivity.
Qed.

Lemma feature_names_keys c0 c1 c2 :
  Sk.get_feature_names {| Sk.categories_ := [c0; c1; c2] |}
  = map key_name (keys c0 c1 c2).
Proof.
  unfold Sk.get_feature_names, keys. cbn [Sk.categories_ Sk.feature_names_from].
  rewrite app_nil_r, !map_app, !map_map. reflexivity.
Qed.

Lemma encoded_frame_columns c0 c1 c2 rows out :
  Sk.ohe_transform {| Sk.categories_ := [c0; c1; c2] |} (ohe_input rows) = Ok out ->
  DataFrame out (Sk.get_feature_names {| Sk.categories_ := [c0; c1; c2] |})
  = indicator_columns 0 town c0 rows ++ indicator_columns 1 flat_type c1 rows
    ++ indicator_columns 2 flat_model c2 rows.
Proof.
  intros H. apply ohe_transform_rows in H. subst out.
  unfold DataFrame. rewrite feature_names_keys, length_map, map_map.
  rewrite (map_ext _ (fun r => map (fun k => Int (key_value r k)) (keys c0 c1 c2)))
    by (intros r; apply map_map).
  rewrite (transpose_map (fun r k => Int (key_value r k))).
  rewrite combine_map. unfold keys, indicator_columns.
  rewrite !map_app, !map_map. reflexivity.
Qed.

Lemma oe_transform_codes cats X codes :
  Sk.oe_transform {| Sk.oe_categories_ := cats |} X = Ok codes ->
  mapM (Sk.oe_encode cats) X = Ok codes.
Proof.
  unfold Sk.oe_transform. intros H. bind_inv H. exact H.
Qed.

Lemma run_frame rows nb :
  Train.run rows = Ok nb ->
  exists sale_date years months codes,
    mapM Datetime.to_datetime (map month rows) = Ok sale_date /\
    mapM Parser.years_remaining (map remaining_lease rows) = Ok years /\
    mapM Parser.months_remaining (map remaining_lease rows) = Ok months /\
    mapM (Sk.oe_encode storey_cat) (map storey_range rows) = Ok codes /\
    oe nb = {| Sk.oe_categories_ := storey_cat |} /\
    ohe nb = {| Sk.categories_ := [towns rows; flat_types rows; flat_models rows] |} /\
    df nb = [ ("floor_area_sqm", map floor_area_sqm rows);
              ("resale_price", map resale_price rows);
              ("sale_year", map dt_year sale_date);
              ("sale_month", map dt_month sale_date);
              ("years_remaining", map Int years);
              ("months_remaining", map Int months);
              ("storey", map Int codes) ] ++ indicators rows rows /\
    X nb = [ ("floor_area_sqm", map floor_area_sqm rows);
             ("sale_year", map dt_year sale_date);
             ("sale_month", map dt_month sale_date);
             ("years_remaining", map Int years);
             ("months_remaining", map Int months);
             ("storey", map Int codes) ] ++ indicators rows rows /\
    y nb = map resale_price rows.
Proof.
  intros H. rewrite run_normal in H. bind_inv H. injection H as <-.
  destruct (oe_fit_transform_inv _ _ _ E2) as [Hoe Hcodes].
  destruct (ohe_fit_transform_inv _ _ E3) as [Hohe Hrows].
  destruct a2 as [enc codes], a3 as [henc out]. cbn [fst snd] in *. subst enc henc.
  apply oe_transform_codes in Hcodes.
  unfold ohe_input at 1, ohe_features in Hrows. cbn [map] in Hrows.
  pose proof (encoded_frame_columns _ _ _ _ _ Hrows) as HE.
  exists a, a0, a1, codes. cbn [df X y oe ohe].
  unfold encoded_frame. cbn [fst snd].
  unfold ohe_input, ohe_features. cbn [map].
  rewrite HE. repeat split; assumption.
Qed.

Lemma mapM_nth {A B} (f : A -> result B) l out j a :
  mapM f l = Ok out -> nth_error l j = Some a ->
  exists b, f a = Ok b /\ nth_error out j = Some b.
Proof.
  intros H. apply mapM_Forall2 in H. revert j.
  induction H as [|a' b l out Hab _ IH]; intros [|j] Hj; simpl in *;
    try discriminate.
  - injection Hj as ->. eauto.
  - auto.
Qed.

(** *** The one-hot encoder, row for row *)

Lemma onehot_at c x i :
  nth_error (Sk.onehot c x) i = Some 1 <-> nth_error c i = Some x.
Proof.
  unfold Sk.onehot. rewrite nth_error_map.
  destruct (nth_error c i) as [y|]; simpl; [|split; discriminate].
  destruct (String.eqb_spec y x) as [->|Hne].
  - split; reflexivity.
  - split; [discriminate | intros H; injection H as ->; contradiction].
Qed.

Lemma encode_blocks_at cats : Forall (@NoDup string) cats -> forall row bs,
  Sk.encode_blocks cats row = Ok bs ->
  List.length bs = List.length cats /\
  Forall2 (fun cv b => block_of (fst cv) (snd cv) b) (combine cats row) bs.
Proof.
  induction 1 as [|c cats Hc Hcs IH]; intros [|x row] bs; simpl; try discriminate.
  - intros H; injection H as <-. split; [reflexivity | constructor].
  - unfold Sk.encode_value.
    pose proof (encode_value_spec c x Hc) as Hv. unfold Sk.encode_value in Hv.
    destruct (Sk.index_of x c) as [i|]; cbn [bind]; [|discriminate].
    destruct (Sk.encode_blocks cats row) as [bs'|] eqn:E; cbn [bind];
      [|discriminate].
    intros H; injection H as <-.
    destruct (IH row bs' E) as [Hlen Hbs]. split; [simpl; congruence|].
    constructor; [|exact Hbs]. split; [apply Hv | apply onehot_at].
Qed.

Lemma zip_cons_nth {A} (c : list A) (L : list (list A)) j x l :
  nth_error c j = Some x -> nth_error L j = Some l ->
  nth_error (Pd.zip_cons c L) j = Some (x :: l).
Proof.
  revert L j. induction c as [|a c IH]; intros [|l' L] [|j]; simpl;
    try discriminate.
  - intros H1 H2. congruence.
  - apply IH.
Qed.

Lemma transpose_nth n (T : list (list string)) j :
  Forall (fun c => List.length c = n) T -> (j < n)%nat ->
  nth_error (Pd.transpose n T) j = Some (row_of T j).
Proof.
  intros H Hj. unfold Pd.transpose. induction H as [|c T Hc _ IH]; simpl.
  - rewrite nth_error_repeat by exact Hj. reflexivity.
  - apply zip_cons_nth; [|exact IH].
    apply nth_error_nth'. rewrite Hc. exact Hj.
Qed.

Lemma row_of_known T cats n j :
  Forall (fun c => List.length c = n) T -> (j < n)%nat ->
  in_vocabulary T cats -> known (row_of T j) cats.
Proof.
  intros Hlen Hj H. unfold known, row_of. revert Hlen.
  induction H as [|col c T cats Hcol _ IH]; intros Hlen; simpl; [constructor|].
  apply Forall_cons_iff in Hlen. destruct Hlen as [Hc Hlen'].
  constructor; [|apply IH; exact Hlen'].
  rewrite Forall_forall in Hcol. apply Hcol. apply nth_In. rewrite Hc. exact Hj.
Qed.

Lemma In_nth_error_lt {A} (l : list A) x :
  In x l -> exists j, (j < List.length l)%nat /\ nth_error l j = Some x.
Proof.
  intros H. apply In_nth_error in H. destruct H as [j Hj]. exists j.
  split; [|exact Hj]. apply nth_error_Some. congruence.
Qed.

(** A table whose values are all in the vocabularies is encoded, row for
    row. *)
Lemma ohe_transform_encodes cats n T :
  Forall (@NoDup string) cats -> table n T -> in_vocabulary T cats ->
  exists out,
    Sk.ohe_transform {| Sk.categories_ := cats |} T = Ok out /\
    encodes cats T n out.
Proof.
  intros Hnd (Hn & HT & Hlen) Hin.
  assert (Hne : Forall (fun c : list string => c <> []) T).
  { eapply Forall_impl; [|exact Hlen]. intros c Hc ->. simpl in Hc. congruence. }
  destruct (mapM_check_array T Hne) as [u Hu].
  assert (Hhd : List.length (hd [] T) = n).
  { destruct T as [|c T]; [congruence|]. inversion Hlen; subst. reflexivity. }
  assert (Hrows : exists out,
             mapM (Sk.encode_row cats) (Pd.transpose n T) = Ok out).
  { apply mapM_Ok_iff. apply Forall_forall. intros row Hrow.
    destruct (In_nth_error_lt _ _ Hrow) as (j & Hj & Hnth).
    rewrite (transpose_length n T Hlen) in Hj.
    rewrite (transpose_nth n T j Hlen Hj) in Hnth. injection Hnth as <-.
    apply encode_row_known; [exact Hnd|].
    eapply row_of_known; eauto. }
  destruct Hrows as [out Hout]. exists out. split.
  - unfold Sk.ohe_transform. rewrite Hu, Hhd. cbn [bind Sk.categories_].
    exact Hout.
  - split.
    + rewrite (mapM_length _ _ _ Hout). apply transpose_length. exact Hlen.
    + intros j Hj.
      destruct (mapM_nth _ _ _ j _ Hout (transpose_nth n T j Hlen Hj))
        as (o & Ho & Hnth).
      unfold Sk.encode_row in Ho.
      destruct (Sk.encode_blocks cats (row_of T j)) as [bs|] eqn:E;
        cbn [bind] in Ho; [|discriminate].
      injection Ho as <-. exists bs. split; [exact Hnth|].
      apply (encode_blocks_at cats Hnd _ _ E).
Qed.

Lemma own_vocabulary X : in_vocabulary X (map Sk.unique X).
Proof.
  unfold in_vocabulary. induction X as [|col X IH]; simpl; constructor; [|exact IH].
  apply Forall_forall. intros v Hv. apply unique_In. exact Hv.
Qed.

(** C6. One-hot encoding puts a single 1 in each block, at the place of the
    row's value. For an encoder fitted on a table [X]: a row whose values
    are all in the fitted vocabularies is encoded, and its output is the
    concatenation of one block per encoded column, where the block of a
    column with [k] fitted values has length [k], holds exactly one 1 and
    holds 0 in the other [k - 1] places; the same holds for every row of
    every table that [transform] encodes. Moreover [transform] does encode
    every table whose values are all in the fitted vocabularies, and
    [fit_transform] the table [X] itself: row [j] of the output is there for
    every row [j] of the table, and is made of one block per column whose
    single 1 stands at the place of the row's value in the fitted vocabulary
    of that column. *)
Theorem one_hot_exactly_one X enc :
  Sk.ohe_fit X = Ok enc ->
  (forall row, known row (Sk.categories_ enc) ->
     exists blocks,
       Sk.encode_row (Sk.categories_ enc) row = Ok (List.concat blocks) /\
       Forall2 (fun c b => exactly_one (List.length c) b)
               (Sk.categories_ enc) blocks) /\
  (forall T out, Sk.ohe_transform enc T = Ok out ->
     Forall (fun o => exists blocks,
               o = List.concat blocks /\
               Forall2 (fun c b => exactly_one (List.length c) b)
                       (Sk.categories_ enc) blocks) out) /\
  (forall n T, table n T -> in_vocabulary T (Sk.categories_ enc) ->
     exists out, Sk.ohe_transform enc T = Ok out /\
                 encodes (Sk.categories_ enc) T n out) /\
  (forall n, table n X ->
     exists out, Sk.ohe_fit_transform X = Ok (enc, out) /\
                 encodes (Sk.categories_ enc) X n out).
Proof.
  intros Hfit. pose proof (fitted_NoDup _ _ Hfit) as Hnd.
  split; [|split; [|split]].
  - intros row Hk. pose proof (encode_blocks_spec _ Hnd row) as Hs.
    unfold Sk.encode_row.
    destruct (Sk.encode_blocks (Sk.categories_ enc) row) as [bs|e]; simpl.
    + exists bs. split; [reflexivity | apply Hs].
    + destruct Hs as [_ Hs]. contradiction.
  - intros T out Ht. unfold Sk.ohe_transform in Ht.
    destruct (mapM Sk.check_array T); simpl in Ht; [|discriminate].
    apply mapM_Forall2 in Ht. apply Forall_forall. intros o Ho.
    destruct (Forall2_In_r _ _ _ _ Ht Ho) as (row & _ & Hrow).
    pose proof (encode_blocks_spec _ Hnd row) as Hs.
    unfold Sk.encode_row in Hrow.
    destruct (Sk.encode_blocks (Sk.categories_ enc) row) as [bs|e];
      simpl in Hrow; [|discriminate].
    injection Hrow as <-. exists bs. split; [reflexivity | apply Hs].
  - intros n T HT Hin. destruct enc as [cats]. cbn [Sk.categories_] in *.
    apply ohe_transform_encodes; assumption.
  - intros n HX. pose proof (ohe_fit_inv _ _ Hfit) as Henc. subst enc.
    cbn [Sk.categories_] in *.
    destruct (ohe_transform_encodes (map Sk.unique X) n X Hnd HX
                (own_vocabulary X)) as (out & Hout & Henc).
    exists out. split; [|exact Henc].
    unfold Sk.ohe_fit_transform. rewrite Hfit. cbn [bind]. rewrite Hout.
    reflexivity.
Qed.

Lemma one_hot_exactly_one_witness :
  (exists out,
     Sk.ohe_transform (ohe Examples.fitted) (ohe_input [Examples.myflat]) = Ok out /\
     encodes (Sk.categories_ (ohe Examples.fitted))
             (ohe_input [Examples.myflat]) 1 out) /\
  (exists out,
     Sk.ohe_fit_transform (ohe_input Examples.corpus)
     = Ok (ohe Examples.fitted, out) /\
     encodes (Sk.categories_ (ohe Examples.fitted))
             (ohe_input Examples.corpus) 4 out).
Proof.
  assert (Hfit : Sk.ohe_fit (ohe_input Examples.corpus) = Ok (ohe Examples.fitted))
    by (vm_compute; reflexivity).
  pose proof (one_hot_exactly_one _ _ Hfit) as H.
  split.
  - apply (proj1 (proj2 (proj2 H)) 1%nat (ohe_input [Examples.myflat])).
    + split; [discriminate|]. split; [discriminate|].
      repeat (apply Forall_cons; [reflexivity|]). apply Forall_nil.
    + vm_compute.
      repeat (apply Forall2_cons;
              [repeat (apply Forall_cons; [auto 10|]); apply Forall_nil|]).
      apply Forall2_nil.
  - apply (proj2 (proj2 (proj2 H)) 4%nat).
    split; [discriminate|]. split; [discriminate|].
    repeat (apply Forall_cons; [reflexivity|]). apply Forall_nil.
Defined.

Lemma append_inj_r (p a b : string) : (p ++ a = p ++ b)%string -> a = b.
Proof.
  induction p as [|c p IH]; simpl; [auto|]. intros H. injection H. exact IH.
Qed.

Lemma feature_name_inj i c c' : Sk.feature_name i c = Sk.feature_name i c' -> c = c'.
Proof.
  unfold Sk.feature_name. intros H.
  apply (append_inj_r "x") in H. apply append_inj_r in H.
  apply (append_inj_r "_") in H. exact H.
Qed.

Lemma getcol_indicator_here i f cats rows rest c :
  In c cats ->
  Pd.getcol (indicator_columns i f cats rows ++ rest) (Sk.feature_name i c)
  = Ok (map (fun r => Int (indicator c (f r))) rows).
Proof.
  unfold indicator_columns.
  induction cats as [|c' cats IH]; intros Hin; [contradiction|].
  cbn [map app Pd.getcol].
  destruct (String.eqb_spec (Sk.feature_name i c') (Sk.feature_name i c)) as [He|Hne].
  - apply feature_name_inj in He. subst c'. reflexivity.
  - destruct Hin as [->|Hin]; [congruence|]. apply IH. exact Hin.
Qed.

Lemma getcol_skip (fr rest : Frame) name :
  Forall (fun n => n <> name) (Pd.columns fr) ->
  Pd.getcol (fr ++ rest) name = Pd.getcol rest name.
Proof.
  unfold Pd.columns. induction fr as [|[n v] fr IH]; simpl; [reflexivity|].
  intros H. inversion H as [|? ? Hn Hfr]; subst.
  apply String.eqb_neq in Hn. rewrite Hn. apply IH. exact Hfr.
Qed.

Lemma indicator_columns_names i f cats rows :
  Pd.columns (indicator_columns i f cats rows) = map (Sk.feature_name i) cats.
Proof.
  unfold Pd.columns, indicator_columns. rewrite map_map. reflexivity.
Qed.

Lemma feature_name_0 c : Sk.feature_name 0 c = String "x" (String "0" (String "_" c)).
Proof. reflexivity. Qed.
Lemma feature_name_1 c : Sk.feature_name 1 c = String "x" (String "1" (String "_" c)).
Proof. reflexivity. Qed.
Lemma feature_name_2 c : Sk.feature_name 2 c = String "x" (String "2" (String "_" c)).
Proof. reflexivity. Qed.

Ltac other_feature :=
  rewrite indicator_columns_names; apply Forall_forall;
  let n := fresh in let Hn := fresh in let c' := fresh in
  intros n Hn; apply in_map_iff in Hn; destruct Hn as (c' & <- & _);
  rewrite ?feature_name_0, ?feature_name_1, ?feature_name_2; discriminate.

Lemma getcol_indicators vocab rows c :
  (In c (towns vocab) ->
   Pd.getcol (indicators vocab rows) (Sk.feature_name 0 c)
   = Ok (map (fun r => Int (indicator c (town r))) rows)) /\
  (In c (flat_types vocab) ->
   Pd.getcol (indicators vocab rows) (Sk.feature_name 1 c)
   = Ok (map (fun r => Int (indicator c (flat_type r))) rows)) /\
  (In c (flat_models vocab) ->
   Pd.getcol (indicators vocab rows) (Sk.feature_name 2 c)
   = Ok (map (fun r => Int (indicator c (flat_model r))) rows)).
Proof.
  unfold indicators. split; [|split]; intros Hin.
  - apply getcol_indicator_here. exact Hin.
  - rewrite getcol_skip by other_feature.
    apply getcol_indicator_here. exact Hin.
  - rewrite getcol_skip by other_feature.
    rewrite getcol_skip by other_feature.
    rewrite <- (app_nil_r (indicator_columns 2 _ _ _)).
    apply getcol_indicator_here. exact Hin.
Qed.

Lemma feature_name_x i c : exists s, Sk.feature_name i c = String "x" s.
Proof. unfold Sk.feature_name. simpl. eauto. Qed.

Lemma cell_at_indicator (fixed : Frame) vocab rows i f c j r :
  Forall (fun n => starts_x n = false) (Pd.columns fixed) ->
  nth_error rows j = Some r ->
  Pd.getcol (indicators vocab rows) (Sk.feature_name i c)
  = Ok (map (fun r => Int (indicator c (f r))) rows) ->
  cell_at (fixed ++ indicators vocab rows) (Sk.feature_name i c) j
  = Some (Int (indicator c (f r))).
Proof.
  intros Hfixed Hj Hget. unfold cell_at. rewrite getcol_skip.
  - rewrite Hget. apply (map_nth_error (fun r => Int (indicator c (f r)))). exact Hj.
  - eapply Forall_impl; [|exact Hfixed]. intros n Hn ->.
    destruct (feature_name_x i c) as [s Hs]. rewrite Hs in Hn. discriminate Hn.
Qed.

(** X3. After a successful run, row [j] of [X] and entry [j] of [y] describe
    record [j] of the corpus and no other: the floor area as given, the year
    and month of the parsed sale date, the two integers of the lease, the
    position of the storey range in [storey_cat], for every fitted town,
    flat type and flat model the indicator 1 when it is the record's own and
    0 otherwise, and the resale price as given. *)
Theorem feature_row_of_record rows nb j r :
  Train.run rows = Ok nb -> nth_error rows j = Some r ->
  exists d yr mo z,
    Datetime.to_datetime (month r) = Ok d /\
    Parser.remaining_lease (remaining_lease r) = Ok (yr, mo) /\
    Sk.oe_encode storey_cat (storey_range r) = Ok z /\
    cell_at (X nb) "floor_area_sqm" j = Some (floor_area_sqm r) /\
    cell_at (X nb) "sale_year" j = Some (dt_year d) /\
    cell_at (X nb) "sale_month" j = Some (dt_month d) /\
    cell_at (X nb) "years_remaining" j = Some (Int yr) /\
    cell_at (X nb) "months_remaining" j = Some (Int mo) /\
    cell_at (X nb) "storey" j = Some (Int z) /\
    (forall c, In c (towns rows) ->
       cell_at (X nb) (Sk.feature_name 0 c) j = Some (Int (indicator c (town r)))) /\
    (forall c, In c (flat_types rows) ->
       cell_at (X nb) (Sk.feature_name 1 c) j
       = Some (Int (indicator c (flat_type r)))) /\
    (forall c, In c (flat_models rows) ->
       cell_at (X nb) (Sk.feature_name 2 c) j
       = Some (Int (indicator c (flat_model r)))) /\
    nth_error (y nb) j = Some (resale_price r).
Proof.
  intros Hrun Hj.
  destruct (run_frame _ _ Hrun)
    as (sd & ys & ms & codes & Hsd & Hys & Hms & Hcodes & _ & _ & _ & HX & Hy).
  destruct (mapM_nth _ _ _ j (month r) Hsd) as (d & Hd & Hdj);
    [apply map_nth_error; exact Hj|].
  destruct (mapM_nth _ _ _ j (remaining_lease r) Hys) as (yr & Hyr & Hyj);
    [apply map_nth_error; exact Hj|].
  destruct (mapM_nth _ _ _ j (remaining_lease r) Hms) as (mo & Hmo & Hmj);
    [apply map_nth_error; exact Hj|].
  destruct (mapM_nth _ _ _ j (storey_range r) Hcodes) as (z & Hz & Hzj);
    [apply map_nth_error; exact Hj|].
  exists d, yr, mo, z.
  split; [exact Hd|].
  split; [unfold Parser.remaining_lease; rewrite Hyr, Hmo; reflexivity|].
  split; [exact Hz|].
  rewrite HX, Hy.
  split; [apply (map_nth_error floor_area_sqm); exact Hj|].
  split; [apply (map_nth_error dt_year); exact Hdj|].
  split; [apply (map_nth_error dt_month); exact Hdj|].
  split; [apply (map_nth_error Int); exact Hyj|].
  split; [apply (map_nth_error Int); exact Hmj|].
  split; [apply (map_nth_error Int); exact Hzj|].
  split; [|split; [|split]].
  - intros c Hc. apply cell_at_indicator; [repeat constructor | exact Hj |].
    apply getcol_indicators. exact Hc.
  - intros c Hc. apply cell_at_indicator; [repeat constructor | exact Hj |].
    apply getcol_indicators. exact Hc.
  - intros c Hc. apply cell_at_indicator; [repeat constructor | exact Hj |].
    apply getcol_indicators. exact Hc.
  - apply (map_nth_error resale_price). exact Hj.
Qed.

Lemma indicators_columns vocab rows :
  Pd.columns (indicators vocab rows) = indicator_names vocab.
Proof.
  unfold indicators, indicator_names, Pd.columns.
  rewrite !map_app. fold (Pd.columns (indicator_columns 0 town (towns vocab) rows)).
  fold (Pd.columns (indicator_columns 1 flat_type (flat_types vocab) rows)).
  fold (Pd.columns (indicator_columns 2 flat_model (flat_models vocab) rows)).
  rewrite !indicator_columns_names. reflexivity.
Qed.

Lemma indicator_names_x rows :
  Forall (fun n => starts_x n = true) (indicator_names rows).
Proof.
  pose proof (feature_names_x 0 [towns rows; flat_types rows; flat_models rows]) as H.
  cbn [Sk.feature_names_from] in H. rewrite app_nil_r in H. exact H.
Qed.

(** *** The columns of the frames *)

Lemma indicators_lengths vocab rows :
  Forall (fun col => List.length (snd col) = List.length rows) (indicators vocab rows).
Proof.
  unfold indicators, indicator_columns.
  repeat (apply Forall_app; split);
    apply Forall_forall; intros col Hcol; apply in_map_iff in Hcol;
    destruct Hcol as (c & <- & _); apply length_map.
Qed.

Lemma indicator_names_NoDup rows : NoDup (indicator_names rows).
Proof.
  pose proof (feature_names_NoDup (towns rows) (flat_types rows) (flat_models rows)
                (unique_NoDup _) (unique_NoDup _) (unique_NoDup _)) as H.
  cbn [Sk.feature_names_from] in H. rewrite app_nil_r in H. exact H.
Qed.

Lemma fitted_feature_names rows nb :
  Train.run rows = Ok nb -> Sk.get_feature_names (ohe nb) = indicator_names rows.
Proof.
  intros Hrun.
  destruct (run_frame _ _ Hrun) as (? & ? & ? & ? & _ & _ & _ & _ & _ & Hohe & _).
  rewrite Hohe. unfold Sk.get_feature_names, indicator_names.
  cbn [Sk.categories_ Sk.feature_names_from]. rewrite app_nil_r. reflexivity.
Qed.

(** X4. After a successful run the frame [df] has the columns
    [floor_area_sqm], [resale_price], [sale_year], [sale_month],
    [years_remaining], [months_remaining], [storey] followed by the
    indicator columns, labelled as [ohe.get_feature_names()] of the fitted
    encoder gives them and in that order; [X] has the same columns without
    [resale_price]; no label occurs twice; every column has one cell per
    record, and [y] has one entry per record. *)
Theorem training_schema rows nb :
  Train.run rows = Ok nb ->
  Pd.columns (df nb)
    = ["floor_area_sqm"; "resale_price"; "sale_year"; "sale_month";
       "years_remaining"; "months_remaining"; "storey"]
      ++ Sk.get_feature_names (ohe nb) /\
  Pd.columns (X nb) = fixed_columns ++ Sk.get_feature_names (ohe nb) /\
  NoDup (Pd.columns (df nb)) /\
  Forall (fun col => List.length (snd col) = List.length rows) (df nb) /\
  List.length (y nb) = List.length rows.
Proof.
  intros Hrun. rewrite (fitted_feature_names rows nb Hrun).
  destruct (run_frame _ _ Hrun)
    as (sd & ys & ms & codes & Hsd & Hys & Hms & Hcodes & _ & _ & Hdf & HX & Hy).
  apply mapM_length in Hsd, Hys, Hms, Hcodes. rewrite length_map in *.
  rewrite Hdf, HX, Hy. unfold Pd.columns. rewrite !map_app.
  fold (Pd.columns (indicators rows rows)). rewrite indicators_columns.
  split; [reflexivity|]. split; [reflexivity|]. split; [|split].
  - cbn [map fst]. apply NoDup_app.
    + repeat (constructor; [not_in|]). constructor.
    + apply indicator_names_NoDup.
    + intros n Hn Hx. pose proof (indicator_names_x rows) as HX'.
      rewrite Forall_forall in HX'. specialize (HX' _ Hx).
      simpl in Hn.
      repeat (destruct Hn as [<-|Hn]; [discriminate HX'|]). contradiction.
  - apply Forall_app. split; [|apply indicators_lengths].
    repeat (apply Forall_cons; [cbn [snd]; rewrite length_map; congruence|]).
    apply Forall_nil.
  - apply length_map.
Qed.

(** *** The order of the rows does not matter to the fitted encoders *)

Lemma str_lt_irrefl a : ~ str_lt a a.
Proof. unfold str_lt. rewrite compare_refl. discriminate. Qed.

Lemma sorted_ext l l' :
  StronglySorted str_lt l -> StronglySorted str_lt l' ->
  (forall x, In x l <-> In x l') -> l = l'.
Proof.
  intros Hl. revert l'. induction Hl as [|a l Hs IH Ha]; intros l' Hl' Hmem.
  - destruct l' as [|b l']; [reflexivity|].
    exfalso. apply (Hmem b). left. reflexivity.
  - destruct Hl' as [|b l' Hs' Hb].
    + exfalso. apply (Hmem a). left. reflexivity.
    + rewrite Forall_forall in Ha, Hb.
      assert (Hab : a = b).
      { destruct (proj1 (Hmem a) (or_introl eq_refl)) as [Hba|Hin]; [auto|].
        destruct (proj2 (Hmem b) (or_introl eq_refl)) as [Hab|Hin']; [auto|].
        exfalso. apply (str_lt_irrefl a).
        eapply compare_trans; [apply Ha; exact Hin' | apply Hb; exact Hin]. }
      subst b. f_equal. apply IH; [exact Hs'|].
      intros x. split; intros Hx.
      * destruct (proj1 (Hmem x) (or_intror Hx)) as [<-|Hin]; [|exact Hin].
        exfalso. apply (str_lt_irrefl a). apply Ha. exact Hx.
      * destruct (proj2 (Hmem x) (or_intror Hx)) as [<-|Hin]; [|exact Hin].
        exfalso. apply (str_lt_irrefl a). apply Hb. exact Hx.
Qed.

Lemma unique_ext col col' :
  (forall x, In x col <-> In x col') -> Sk.unique col = Sk.unique col'.
Proof.
  intros H. apply sorted_ext; try apply unique_sorted.
  intros x. rewrite !unique_In. apply H.
Qed.

Lemma perm_map_mem {A} (f : A -> string) rows rows' :
  Permutation rows rows' -> forall x, In x (map f rows) <-> In x (map f rows').
Proof.
  intros P x. split; apply Permutation_in; [|symmetry]; apply Permutation_map; exact P.
Qed.

(** X5. Training on the same records in another order succeeds as well and
    fits the same encoders and the same column labels of [df] and [X]. *)
Theorem row_order_irrelevant rows rows' nb :
  Permutation rows rows' -> Train.run rows = Ok nb ->
  exists nb',
    Train.run rows' = Ok nb' /\
    oe nb' = oe nb /\ ohe nb' = ohe nb /\
    Pd.columns (df nb') = Pd.columns (df nb) /\
    X_train_columns nb' = X_train_columns nb.
Proof.
  intros P Hrun.
  assert (Hok : exists nb', Train.run rows' = Ok nb').
  { apply run_Ok_iff.
    destruct (proj1 (run_Ok_iff rows) (ex_intro _ nb Hrun)) as [Hne Hall].
    split.
    - intros ->. apply Permutation_sym, Permutation_nil in P. contradiction.
    - eapply Permutation_Forall; eauto. }
  destruct Hok as [nb' Hrun']. exists nb'. split; [exact Hrun'|].
  destruct (run_frame _ _ Hrun) as (? & ? & ? & ? & _ & _ & _ & _ & Hoe & Hohe & Hdf & HX & _).
  destruct (run_frame _ _ Hrun') as (? & ? & ? & ? & _ & _ & _ & _ & Hoe' & Hohe' & Hdf' & HX' & _).
  assert (Ht : towns rows' = towns rows)
    by (apply unique_ext; intros v; symmetry; apply perm_map_mem; exact P).
  assert (Hf : flat_types rows' = flat_types rows)
    by (apply unique_ext; intros v; symmetry; apply perm_map_mem; exact P).
  assert (Hm : flat_models rows' = flat_models rows)
    by (apply unique_ext; intros v; symmetry; apply perm_map_mem; exact P).
  assert (Hn : indicator_names rows' = indicator_names rows)
    by (unfold indicator_names; rewrite Ht, Hf, Hm; reflexivity).
  split; [congruence|]. split; [rewrite Hohe, Hohe', Ht, Hf, Hm; reflexivity|].
  unfold X_train_columns. rewrite Hdf, Hdf', HX, HX'. unfold Pd.columns.
  rewrite !map_app. fold (Pd.columns (indicators rows rows)).
  fold (Pd.columns (indicators rows' rows')). rewrite !indicators_columns, Hn.
  split; reflexivity.
Qed.

(** *** Pricing one flat *)

Lemma mapM_one {A B} (f : A -> result B) a :
  mapM f [a] = (b <- f a ;; Ok [b]).
Proof. simpl. destruct (f a); reflexivity. Qed.

Lemma encode_row_Ok_iff cats row :
  Forall (@NoDup string) cats ->
  ((exists o, Sk.encode_row cats row = Ok o) <-> known row cats).
Proof.
  intros Hnd. split; [|apply encode_row_known; exact Hnd].
  intros [o H]. unfold Sk.encode_row in H.
  pose proof (encode_blocks_spec cats Hnd row) as Hs.
  destruct (Sk.encode_blocks cats row); [apply Hs | discriminate].
Qed.

Lemma vocab_NoDup rows :
  Forall (@NoDup string) [towns rows; flat_types rows; flat_models rows].
Proof. repeat constructor; apply unique_NoDup. Qed.

Lemma known_seen rows r :
  known [town r; flat_type r; flat_model r]
        [towns rows; flat_types rows; flat_models rows] <-> seen rows r.
Proof.
  rewrite known3. unfold seen, towns, flat_types, flat_models.
  rewrite !unique_In. reflexivity.
Qed.

Lemma ohe_transform_single rows r :
  ((exists out, Sk.ohe_transform (fitted_ohe rows) (ohe_input [r]) = Ok out)
   <-> seen rows r) /\
  (forall out, Sk.ohe_transform (fitted_ohe rows) (ohe_input [r]) = Ok out ->
     DataFrame out (Sk.get_feature_names (fitted_ohe rows)) = indicators rows [r]).
Proof.
  split.
  - rewrite <- known_seen. rewrite <- (encode_row_Ok_iff _ _ (vocab_NoDup rows)).
    unfold ohe_input, ohe_features. cbn [map]. rewrite ohe_transform_one.
    unfold fitted_ohe. cbn [Sk.categories_].
    destruct (Sk.encode_row _ _) as [o|e]; cbn [bind].
    + split; eauto.
    + split; intros [? H]; discriminate H.
  - intros out H. apply encoded_frame_columns. exact H.
Qed.

Lemma oe_transform_single cats x :
  Sk.oe_transform {| Sk.oe_categories_ := cats |} [x]
  = (z <- Sk.oe_encode cats x ;; Ok [z]).
Proof.
  unfold Sk.oe_transform. cbn [Sk.check_array bind Sk.oe_categories_].
  apply mapM_one.
Qed.

Lemma assemble_frame rows nb r :
  Train.run rows = Ok nb ->
  Predict.assemble nb r =
  (y <- Parser.sale_year (month r) ;;
   m <- Parser.sale_month (month r) ;;
   z <- Sk.oe_encode storey_cat (storey_range r) ;;
   enc <- Sk.ohe_transform (ohe nb) (ohe_input [r]) ;;
   yr <- Parser.years_remaining (remaining_lease r) ;;
   mo <- Parser.months_remaining (remaining_lease r) ;;
   Ok (assembled_frame rows r y m z yr mo)).
Proof.
  intros Hrun.
  destruct (run_frame _ _ Hrun) as (? & ? & ? & ? & _ & _ & _ & _ & Hoe & Hohe & _).
  rewrite assemble_normal, Hoe, Hohe, !mapM_one, oe_transform_single.
  fold (fitted_ohe rows).
  destruct (Parser.sale_year (month r)) as [y|]; cbn [bind]; [|reflexivity].
  destruct (Parser.sale_month (month r)) as [m|]; cbn [bind]; [|reflexivity].
  destruct (Sk.oe_encode storey_cat (storey_range r)) as [z|]; cbn [bind];
    [|reflexivity].
  destruct (Sk.ohe_transform _ (ohe_input [r])) as [out|] eqn:E; cbn [bind];
    [|reflexivity].
  rewrite (proj2 (ohe_transform_single rows r) out E).
  destruct (Parser.years_remaining (remaining_lease r)) as [yr|]; cbn [bind];
    [|reflexivity].
  destruct (Parser.months_remaining (remaining_lease r)) as [mo|]; cbn [bind];
    reflexivity.
Qed.

(** *** A record of the corpus, priced again *)

Lemma getcol_In (fr : Frame) n v :
  NoDup (Pd.columns fr) -> In (n, v) fr -> Pd.getcol fr n = Ok v.
Proof.
  unfold Pd.columns. induction fr as [|[n' v'] fr IH]; simpl; [contradiction|].
  intros Hnd Hin. inversion Hnd as [|? ? Hn Hnd']; subst.
  destruct Hin as [Heq|Hin].
  - injection Heq as -> ->. rewrite String.eqb_refl. reflexivity.
  - destruct (String.eqb_spec n' n) as [->|_]; [|auto].
    exfalso. apply Hn. apply in_map_iff. exists (n, v). auto.
Qed.

Lemma getcol_some (fr : Frame) n :
  In n (Pd.columns fr) -> exists v, Pd.getcol fr n = Ok v /\ In (n, v) fr.
Proof.
  unfold Pd.columns. induction fr as [|[n' v'] fr IH]; simpl; [contradiction|].
  intros Hin. destruct (String.eqb_spec n' n) as [->|Hne]; [eauto|].
  destruct Hin as [?|Hin]; [contradiction|].
  destruct (IH Hin) as (v & Hv & Hin'). eauto.
Qed.

Lemma getcol_app_l (fr rest : Frame) n v :
  Pd.getcol fr n = Ok v -> Pd.getcol (fr ++ rest) n = Ok v.
Proof.
  induction fr as [|[n' v'] fr IH]; simpl; [discriminate|].
  destruct (String.eqb n' n); auto.
Qed.

Lemma align_getcol rows nb myflat out :
  Train.run rows = Ok nb -> Predict.align nb myflat = Ok out ->
  Pd.columns out = X_train_columns nb /\
  forall n, In n (X_train_columns nb) -> Pd.getcol out n = Pd.getcol myflat n.
Proof.
  intros Hrun Hal.
  destruct (run_columns rows nb Hrun) as (_ & Hnd & Hlen).
  unfold Predict.align in Hal. rewrite Hlen in Hal.
  destruct (Nat.eqb_spec (S (List.length (X_train_columns nb)))
                         (List.length (Pd.columns myflat) + 1)) as [Heq|];
    [|discriminate Hal].
  assert (Hl : List.length (Pd.columns myflat) = List.length (X_train_columns nb))
    by lia.
  destruct (select_aligned _ _ _ Hnd Hl Hal) as (Hcols & Hperm & Hincl).
  split; [exact Hcols|].
  assert (Hnd' : NoDup (Pd.columns myflat)) by (eapply Permutation_NoDup; eauto).
  intros n Hn. rewrite <- Hcols in Hn.
  destruct (getcol_some out n Hn) as (v & Hv & Hin).
  rewrite Hv. symmetry. apply getcol_In; [exact Hnd' | apply Hincl; exact Hin].
Qed.

Lemma cell_at_assembled rows r y m z yr mo i f c :
  Pd.getcol (indicators rows [r]) (Sk.feature_name i c)
  = Ok (map (fun r => Int (indicator c (f r))) [r]) ->
  Pd.getcol (assembled_frame rows r y m z yr mo) (Sk.feature_name i c)
  = Ok [Int (indicator c (f r))].
Proof.
  intros H. unfold assembled_frame. rewrite getcol_skip.
  - apply getcol_app_l. exact H.
  - destruct (feature_name_x i c) as [s Hs]. rewrite Hs.
    repeat (apply Forall_cons; [discriminate|]). apply Forall_nil.
Qed.

Lemma getcol_past_indicators vocab rows (tail : Frame) name :
  starts_x name = false ->
  Pd.getcol (indicators vocab rows ++ tail) name = Pd.getcol tail name.
Proof.
  intros Hn. apply getcol_skip. rewrite indicators_columns.
  pose proof (indicator_names_x vocab) as Hx.
  eapply Forall_impl; [|exact Hx]. intros n Hx' ->. congruence.
Qed.

Lemma assembled_lease rows r y m z yr mo :
  Pd.getcol (assembled_frame rows r y m z yr mo) "years_remaining" = Ok [Int yr] /\
  Pd.getcol (assembled_frame rows r y m z yr mo) "months_remaining" = Ok [Int mo].
Proof.
  unfold assembled_frame. cbn [app Pd.getcol String.eqb Ascii.eqb Bool.eqb].
  rewrite !getcol_past_indicators by reflexivity. split; reflexivity.
Qed.

Lemma year_month_text_read s d :
  year_month_text s -> Datetime.to_datetime s = Ok d ->
  exists y m, d = Some (y, m) /\
              Parser.sale_year s = Ok y /\ Parser.sale_month s = Ok m.
Proof.
  intros (a & b & c & e & f & g & Ha & Hb & Hc & He & Hf & Hg & HM & ->) Hd.
  rewrite (month_text_reader a b c e f g Ha Hb Hc He Hf Hg HM) in Hd.
  destruct (month_text_lambdas a b c e f g Ha Hb Hc He Hf Hg) as [Hy Hm].
  destruct (Datetime.in_bounds _ _); [|discriminate Hd].
  injection Hd as <-. eauto.
Qed.

(** X9. A record of the training corpus, priced again. Let the month of the
    record have the form [YYYY-MM], let no month of the corpus be a missing
    timestamp (so that the year and month columns of [X] hold integers), and
    let the prediction cells accept the record. Then the one-row frame
    handed to [predict] has the labels of [X] in their order and, under each
    label, the cell that [X] holds for that record. *)
Theorem training_record_gets_its_own_row rows nb j r out :
  Train.run rows = Ok nb -> nth_error rows j = Some r ->
  Forall (fun r' => Datetime.to_datetime (month r') <> Ok None) rows ->
  year_month_text (month r) ->
  Predict.model_input nb r = Ok out ->
  Pd.columns out = X_train_columns nb /\
  forall name, In name (X_train_columns nb) ->
    exists c, cell_at (X nb) name j = Some c /\ Pd.getcol out name = Ok [c].
Proof.
  intros Hrun Hj _ Hform Hout.
  destruct (run_frame _ _ Hrun)
    as (sd & ys & ms & codes & Hsd & Hys & Hms & Hcodes & _ & Hohe & _ & HX & _).
  destruct (mapM_nth _ _ _ j (month r) Hsd) as (d & Hd & Hdj);
    [apply map_nth_error; exact Hj|].
  destruct (mapM_nth _ _ _ j (remaining_lease r) Hys) as (yr & Hyr & Hyj);
    [apply map_nth_error; exact Hj|].
  destruct (mapM_nth _ _ _ j (remaining_lease r) Hms) as (mo & Hmo & Hmj);
    [apply map_nth_error; exact Hj|].
  destruct (mapM_nth _ _ _ j (storey_range r) Hcodes) as (z & Hz & Hzj);
    [apply map_nth_error; exact Hj|].
  destruct (year_month_text_read _ _ Hform Hd) as (y & m & -> & Hy & Hm).
  unfold Predict.model_input in Hout.
  destruct (Predict.assemble nb r) as [myflat|] eqn:Hasm; [|discriminate Hout].
  cbn [bind] in Hout.
  rewrite (assemble_frame rows nb r Hrun), Hy, Hm, Hz in Hasm.
  cbn [bind] in Hasm. rewrite Hyr, Hmo in Hasm.
  destruct (Sk.ohe_transform (ohe nb) (ohe_input [r])) as [enc|];
    cbn [bind] in Hasm; [|discriminate Hasm].
  assert (Hmy : myflat = assembled_frame rows r y m z yr mo) by congruence.
  clear Hasm. subst myflat.
  destruct (align_getcol _ _ _ _ Hrun Hout) as [Hcols Hget].
  split; [exact Hcols|].
  intros name Hname. rewrite (Hget name Hname).
  unfold X_train_columns in Hname. rewrite HX in Hname. rewrite HX.
  unfold Pd.columns in Hname. rewrite map_app in Hname.
  fold (Pd.columns (indicators rows rows)) in Hname.
  rewrite indicators_columns in Hname. cbn [map fst] in Hname.
  apply in_app_or in Hname. destruct Hname as [Hfix|Hind].
  - simpl in Hfix.
    destruct Hfix as [<-|[<-|[<-|[<-|[<-|[<-|[]]]]]]].
    + exists (floor_area_sqm r). split; [|reflexivity].
      apply (map_nth_error floor_area_sqm). exact Hj.
    + exists (Int y). split; [|reflexivity].
      apply (map_nth_error dt_year _ _ Hdj).
    + exists (Int m). split; [|reflexivity].
      apply (map_nth_error dt_month _ _ Hdj).
    + exists (Int yr). split; [|apply assembled_lease].
      apply (map_nth_error Int _ _ Hyj).
    + exists (Int mo). split; [|apply assembled_lease].
      apply (map_nth_error Int _ _ Hmj).
    + exists (Int z). split; [|reflexivity].
      apply (map_nth_error Int _ _ Hzj).
  - unfold indicator_names in Hind.
    apply in_app_or in Hind. destruct Hind as [H0|Hind];
      [|apply in_app_or in Hind; destruct Hind as [H1|H2]].
    + apply in_map_iff in H0. destruct H0 as (c & <- & Hc).
      exists (Int (indicator c (town r))). split.
      * apply cell_at_indicator; [repeat constructor | exact Hj |].
        apply getcol_indicators. exact Hc.
      * apply cell_at_assembled. apply getcol_indicators. exact Hc.
    + apply in_map_iff in H1. destruct H1 as (c & <- & Hc).
      exists (Int (indicator c (flat_type r))). split.
      * apply cell_at_indicator; [repeat constructor | exact Hj |].
        apply getcol_indicators. exact Hc.
      * apply cell_at_assembled. apply getcol_indicators. exact Hc.
    + apply in_map_iff in H2. destruct H2 as (c & <- & Hc).
      exists (Int (indicator c (flat_model r))). split.
      * apply cell_at_indicator; [repeat constructor | exact Hj |].
        apply getcol_indicators. exact Hc.
      * apply cell_at_assembled. apply getcol_indicators. exact Hc.
Qed.

(** *** The month lambdas of the prediction cells *)

Lemma getitem_last {A} (l : list A) :
  l <> [] -> exists a, Py.getitem l (-1) = Ok a.
Proof.
  intros Hne. unfold Py.getitem. change (-1 <? 0) with true. cbv beta iota.
  assert (Hlen : (0 < List.length l)%nat) by (destruct l; [congruence | simpl; lia]).
  replace ((Z.of_nat (List.length l) + -1 <? 0)
           || (Z.of_nat (List.length l) <=? Z.of_nat (List.length l) + -1))
    with false.
  2:{ symmetry. apply orb_false_intro; [apply Z.ltb_ge | apply Z.leb_gt]; lia. }
  destruct (nth_error l (Z.to_nat (Z.of_nat (List.length l) + -1))) as [a|] eqn:E;
    [eauto|].
  apply nth_error_None in E. lia.
Qed.

Lemma getitem_first {A} (l : list A) :
  l <> [] -> exists a, Py.getitem l 0 = Ok a.
Proof.
  intros Hne. rewrite getitem_0. destruct l; [congruence | simpl; eauto].
Qed.

(** X10. The two month lambdas of the prediction cells,
    [int(x.split("-")[0])] and [int(x.split("-")[-1])], raise
    [AttributeError] on a cell that is not a text (a month that [read_csv]
    typed as a number, or a missing one) and nothing but [ValueError] on a
    text: never [IndexError], since a split at a separator has at least one
    field. On a text without hyphen both return what [int] returns on the
    whole text. *)
Theorem month_lambdas_errors :
  (forall x e, Cell.sale_year x = Raise e ->
     (Cell.is_str x = true /\ e = ValueError) \/
     (Cell.is_str x = false /\ e = AttributeError)) /\
  (forall x e, Cell.sale_month x = Raise e ->
     (Cell.is_str x = true /\ e = ValueError) \/
     (Cell.is_str x = false /\ e = AttributeError)) /\
  (forall x, Cell.is_str x = false ->
     Cell.sale_year x = Raise AttributeError /\
     Cell.sale_month x = Raise AttributeError) /\
  (forall s, all_chars (fun c => negb (Ascii.eqb "-" c)) s = true ->
     Cell.sale_year (Str s) = Py.int s /\ Cell.sale_month (Str s) = Py.int s).
Proof.
  assert (Hy : forall s e, Parser.sale_year s = Raise e -> e = ValueError).
  { intros s e. unfold Parser.sale_year, Py.split_sep.
    destruct (getitem_first (Py.fields (Ascii.eqb "-") s) (fields_nonnil _ _))
      as [t ->].
    cbn [bind]. apply int_Raise. }
  assert (Hm : forall s e, Parser.sale_month s = Raise e -> e = ValueError).
  { intros s e. unfold Parser.sale_month, Py.split_sep.
    destruct (getitem_last (Py.fields (Ascii.eqb "-") s) (fields_nonnil _ _))
      as [t ->].
    cbn [bind]. apply int_Raise. }
  split; [|split; [|split]].
  - intros x e H. destruct x as [| |s|z|q|yr mo];
      try (right; split; [reflexivity|]; cbn in H; congruence).
    left. split; [reflexivity|]. eapply Hy. exact H.
  - intros x e H. destruct x as [| |s|z|q|yr mo];
      try (right; split; [reflexivity|]; cbn in H; congruence).
    left. split; [reflexivity|]. eapply Hm. exact H.
  - intros x Hx. destruct x; try (split; reflexivity). discriminate Hx.
  - intros s Hs. cbn [Cell.sale_year Cell.sale_month Cell.str_method].
    unfold Cell.sale_year, Cell.sale_month, Cell.str_method.
    unfold Parser.sale_year, Parser.sale_month, Py.split_sep.
    rewrite (fields_last _ _ Hs). split; reflexivity.
Qed.

(** *** What the count of missing cells shows *)

Lemma count_na_Int l : count_na (map Int l) = 0%nat.
Proof. unfold count_na. induction l; simpl; auto. Qed.

Lemma isna_sum_In (fr : Frame) n k :
  In (n, k) (Pd.isna_sum fr) -> exists col, In (n, col) fr /\ k = count_na col.
Proof.
  unfold Pd.isna_sum. intros H. apply in_map_iff in H.
  destruct H as ([n' col] & Heq & Hin). cbn [fst snd] in Heq.
  injection Heq as Hn Hk. subst n k. exists col. split; [exact Hin | reflexivity].
Qed.

Lemma indicators_In vocab rows n col :
  In (n, col) (indicators vocab rows) -> starts_x n = true /\ count_na col = 0%nat.
Proof.
  intros H. split.
  - pose proof (indicator_names_x vocab) as Hx. rewrite Forall_forall in Hx.
    apply Hx. rewrite <- (indicators_columns vocab rows).
    apply (in_map fst) in H. exact H.
  - unfold indicators, indicator_columns in H.
    repeat (apply in_app_or in H; destruct H as [H|H]);
      apply in_map_iff in H; destruct H as (c & Heq & _);
      injection Heq as _ <-;
      rewrite <- (map_map _ Int); apply count_na_Int.
Qed.

Lemma to_datetime_None s d :
  Datetime.to_datetime s = Ok d -> Pd.isna (dt_year d) = is_nat_text s.
Proof.
  unfold Datetime.to_datetime.
  change (is_nat_text s) with (Datetime.missing s).
  destruct (Datetime.missing s); [intros H; injection H as <-; reflexivity|].
  destruct (Datetime.strptime s) as [[y m]|]; [|discriminate].
  destruct (Datetime.in_bounds y m); [|discriminate].
  intros H; injection H as <-. reflexivity.
Qed.

Lemma count_na_years l sd :
  mapM Datetime.to_datetime l = Ok sd ->
  count_na (map dt_year sd) = List.length (filter is_nat_text l).
Proof.
  intros H. apply mapM_Forall2 in H. unfold count_na.
  induction H as [|s d l sd Hd _ IH]; [reflexivity|].
  cbn [map filter]. rewrite (to_datetime_None _ _ Hd).
  destruct (is_nat_text s); cbn [List.length]; congruence.
Qed.

(** X11. In the counts shown by [df.isna().sum()] after a successful run, the
    columns written by the lease lambdas and the encoders
    ([years_remaining], [months_remaining], [storey] and every indicator
    column) have count 0, and the count of [sale_year] is the number of
    records whose month is the empty text or one of the words [NaT], [nat],
    [NAT], [nan], [NaN], [NAN], as the text stands: the texts that
    [pd.to_datetime] turns into a missing timestamp. *)
Theorem encoding_leaves_no_missing_cell rows nb n k :
  Train.run rows = Ok nb -> In (n, k) (isna_shown nb) ->
  (n = "years_remaining" \/ n = "months_remaining" \/ n = "storey" \/
   starts_x n = true -> k = 0%nat) /\
  (n = "sale_year" -> k = List.length (filter is_nat_text (map month rows))).
Proof.
  intros Hrun Hin.
  rewrite run_normal in Hrun. bind_inv Hrun. injection Hrun as <-.
  cbn [isna_shown] in Hin.
  destruct (ohe_fit_transform_inv _ _ E3) as [Hcat Hrows].
  destruct a3 as [enc out]. cbn [fst snd] in *. subst enc.
  unfold ohe_input at 1, ohe_features in Hrows. cbn [map] in Hrows.
  pose proof (encoded_frame_columns _ _ _ _ _ Hrows) as HE.
  unfold encoded_frame in Hin. cbn [fst snd] in Hin.
  unfold ohe_input, ohe_features in Hin. cbn [map] in Hin. rewrite HE in Hin.
  fold (towns rows) (flat_types rows) (flat_models rows) in Hin.
  fold (indicators rows rows) in Hin.
  fold (count_na (map Int a0)) (count_na (map Int a1))
       (count_na (map Int (snd a2))) (count_na (map dt_year a)) in Hin.
  rewrite !count_na_Int, (count_na_years _ _ E) in Hin.
  cbn [In] in Hin.
  repeat (destruct Hin as [Heq|Hin];
          [injection Heq as <- <-;
           split; [intros [H|[H|[H|H]]]; (discriminate H || reflexivity)
                  | intros H; (discriminate H || reflexivity)] |]).
  apply isna_sum_In in Hin. destruct Hin as (col & Hin & ->).
  destruct (indicators_In _ _ _ _ Hin) as [Hx Hz].
  split; [intros _; exact Hz | intros ->; discriminate Hx].
Qed.

(** *** The row handed to [predict] *)

Lemma X_columns_names rows nb :
  Train.run rows = Ok nb ->
  X_train_columns nb = fixed_columns ++ indicator_names rows.
Proof.
  intros Hrun.
  destruct (run_frame _ _ Hrun) as (? & ? & ? & ? & _ & _ & _ & _ & _ & _ & _ & HX & _).
  unfold X_train_columns. rewrite HX. unfold Pd.columns. rewrite map_app.
  fold (Pd.columns (indicators rows rows)). rewrite indicators_columns.
  reflexivity.
Qed.

(** X8. When the prediction cells accept a flat, the one-row frame handed to
    [predict] has the labels of [X] in their order and holds: the floor area
    as given, the two integers the month lambdas read, the two integers the
    lease lambdas read, the position of the storey range in [storey_cat],
    and for every fitted town, flat type and flat model the indicator 1 when
    it is the flat's own and 0 otherwise. *)
Theorem priced_row_values rows nb r out :
  Train.run rows = Ok nb -> Predict.model_input nb r = Ok out ->
  exists y m z yr mo,
    Parser.sale_year (month r) = Ok y /\
    Parser.sale_month (month r) = Ok m /\
    Sk.oe_encode storey_cat (storey_range r) = Ok z /\
    Parser.remaining_lease (remaining_lease r) = Ok (yr, mo) /\
    Pd.columns out = X_train_columns nb /\
    Pd.getcol out "floor_area_sqm" = Ok [floor_area_sqm r] /\
    Pd.getcol out "sale_year" = Ok [Int y] /\
    Pd.getcol out "sale_month" = Ok [Int m] /\
    Pd.getcol out "years_remaining" = Ok [Int yr] /\
    Pd.getcol out "months_remaining" = Ok [Int mo] /\
    Pd.getcol out "storey" = Ok [Int z] /\
    (forall c, In c (towns rows) ->
       Pd.getcol out (Sk.feature_name 0 c) = Ok [Int (indicator c (town r))]) /\
    (forall c, In c (flat_types rows) ->
       Pd.getcol out (Sk.feature_name 1 c) = Ok [Int (indicator c (flat_type r))]) /\
    (forall c, In c (flat_models rows) ->
       Pd.getcol out (Sk.feature_name 2 c) = Ok [Int (indicator c (flat_model r))]).
Proof.
  intros Hrun Hout.
  unfold Predict.model_input in Hout.
  destruct (Predict.assemble nb r) as [myflat|e] eqn:Hasm; [|discriminate Hout].
  cbn [bind] in Hout.
  rewrite (assemble_frame rows nb r Hrun) in Hasm. bind_inv Hasm.
  assert (Hmy : myflat = assembled_frame rows r a a0 a1 a3 a4) by congruence.
  clear Hasm. subst myflat.
  destruct (align_getcol _ _ _ _ Hrun Hout) as [Hcols Hget].
  pose proof (X_columns_names rows nb Hrun) as Hnames.
  exists a, a0, a1, a3, a4.
  split; [reflexivity|]. split; [reflexivity|]. split; [reflexivity|].
  split; [unfold Parser.remaining_lease; rewrite E3, E4; reflexivity|].
  split; [exact Hcols|].
  assert (Hfix : forall n, In n fixed_columns -> In n (X_train_columns nb)).
  { intros n Hn. rewrite Hnames. apply in_or_app. left. exact Hn. }
  assert (Hind : forall n, In n (indicator_names rows) -> In n (X_train_columns nb)).
  { intros n Hn. rewrite Hnames. apply in_or_app. right. exact Hn. }
  repeat match goal with
         | |- Pd.getcol out ?n = _ /\ _ =>
             split; [rewrite (Hget n) by (apply Hfix; unfold fixed_columns; simpl; tauto)|]
         end.
  1-6: try reflexivity; try apply assembled_lease.
  unfold indicator_names in Hind.
  split; [|split]; intros c Hc.
  - rewrite Hget by (apply Hind, in_or_app; left; apply in_map; exact Hc).
    apply cell_at_assembled. apply getcol_indicators. exact Hc.
  - rewrite Hget
      by (apply Hind, in_or_app; right; apply in_or_app; left; apply in_map; exact Hc).
    apply cell_at_assembled. apply getcol_indicators. exact Hc.
  - rewrite Hget
      by (apply Hind, in_or_app; right; apply in_or_app; right; apply in_map; exact Hc).
    apply cell_at_assembled. apply getcol_indicators. exact Hc.
Qed.

(** *** The columns dropped unread *)

Lemma same_features_map {A} (f : TransactionRecord -> A) rows rows' :
  (forall r r', same_features r r' -> f r = f r') ->
  Forall2 same_features rows rows' -> map f rows = map f rows'.
Proof.
  intros Hf H. induction H as [|r r' l l' Hr _ IH]; [reflexivity|].
  cbn [map]. rewrite (Hf _ _ Hr), IH. reflexivity.
Qed.

Lemma indicator_columns_map i f cats rows :
  indicator_columns i f cats rows
  = map (fun c => (Sk.feature_name i c, map (fun v => Int (indicator c v)) (map f rows)))
        cats.
Proof.
  unfold indicator_columns. apply map_ext. intros c. rewrite map_map. reflexivity.
Qed.

Lemma same_features_indicators vocab vocab' rows rows' :
  Forall2 same_features vocab vocab' -> Forall2 same_features rows rows' ->
  indicators vocab rows = indicators vocab' rows'.
Proof.
  intros Hv Hr. unfold indicators, towns, flat_types, flat_models.
  rewrite !indicator_columns_map.
  rewrite (same_features_map town vocab vocab'),
          (same_features_map flat_type vocab vocab'),
          (same_features_map flat_model vocab vocab'),
          (same_features_map town rows rows'),
          (same_features_map flat_type rows rows'),
          (same_features_map flat_model rows rows');
    try assumption; try (intros ? ? H; apply H).
  reflexivity.
Qed.

Lemma same_features_refl rows : Forall2 same_features rows rows.
Proof.
  induction rows as [|r rows IH]; constructor; [repeat split | exact IH].
Qed.

Lemma same_features_parses r r' : same_features r r' -> parses r -> parses r'.
Proof.
  intros (Hm & _ & _ & Hs & _ & _ & Hl). unfold parses.
  rewrite Hm, Hs, Hl. tauto.
Qed.

(** X13. The columns that the notebook drops without reading, [block],
    [street_name], [lease_commence_date] and, for the features,
    [resale_price], have no influence on the features: two corpora that
    agree row by row on the seven other columns give the same encoders and
    the same frame [X], and two flats that agree on those columns give the
    same outcome of the prediction cells. *)
Theorem dropped_columns_ignored rows rows' nb :
  Train.run rows = Ok nb -> Forall2 same_features rows rows' ->
  (exists nb', Train.run rows' = Ok nb' /\
               X nb' = X nb /\ oe nb' = oe nb /\ ohe nb' = ohe nb) /\
  (forall r r', same_features r r' ->
                Predict.model_input nb r = Predict.model_input nb r').
Proof.
  intros Hrun Hsame. split.
  - assert (Hok : exists nb', Train.run rows' = Ok nb').
    { apply run_Ok_iff.
      destruct (proj1 (run_Ok_iff rows) (ex_intro _ nb Hrun)) as [Hne Hall].
      split.
      - intros ->. inversion Hsame; subst. congruence.
      - clear Hrun Hne. induction Hsame as [|r r' l l' Hr _ IH]; [constructor|].
        inversion Hall; subst. constructor; [|auto].
        eapply same_features_parses; eauto. }
    destruct Hok as [nb' Hrun']. exists nb'. split; [exact Hrun'|].
    destruct (run_frame _ _ Hrun)
      as (sd & ys & ms & cs & Hsd & Hys & Hms & Hcs & Hoe & Hohe & _ & HX & _).
    destruct (run_frame _ _ Hrun')
      as (sd' & ys' & ms' & cs' & Hsd' & Hys' & Hms' & Hcs' & Hoe' & Hohe' & _ & HX' & _).
    rewrite <- (same_features_map month rows rows') in Hsd'
      by (assumption || (intros ? ? H; apply H)).
    rewrite <- (same_features_map remaining_lease rows rows') in Hys', Hms'
      by (assumption || (intros ? ? H; apply H)).
    rewrite <- (same_features_map storey_range rows rows') in Hcs'
      by (assumption || (intros ? ? H; apply H)).
    assert (sd' = sd) by congruence. assert (ys' = ys) by congruence.
    assert (ms' = ms) by congruence. assert (cs' = cs) by congruence.
    subst sd' ys' ms' cs'.
    split; [|split].
    + rewrite HX, HX'.
      rewrite <- (same_features_map floor_area_sqm rows rows')
        by (assumption || (intros ? ? H; apply H)).
      rewrite (same_features_indicators rows rows' rows rows') by assumption.
      reflexivity.
    + congruence.
    + rewrite Hohe, Hohe'. unfold towns, flat_types, flat_models.
      rewrite <- (same_features_map town rows rows'),
              <- (same_features_map flat_type rows rows'),
              <- (same_features_map flat_model rows rows')
        by (assumption || (intros ? ? H; apply H)).
      reflexivity.
  - intros r r' Hr. unfold Predict.model_input.
    rewrite !(assemble_frame rows nb _ Hrun).
    assert (Hone : Forall2 same_features [r] [r']) 
      by (constructor; [exact Hr | constructor]).
    assert (Hin : ohe_input [r] = ohe_input [r']).
    { unfold ohe_input, ohe_features.
      destruct Hr as (_ & Ht & Hf & _ & _ & Hm & _).
      cbn [map]. rewrite Ht, Hf, Hm. reflexivity. }
    unfold assembled_frame.
    rewrite (same_features_indicators rows rows [r] [r']);
      [|apply same_features_refl | exact Hone].
    destruct Hr as (Hmo & _ & _ & Hs & Ha & _ & Hl).
    rewrite Hin, Hmo, Hs, Ha, Hl. reflexivity.
Qed.

Lemma relabelled_same : Forall2 same_features Examples.corpus Cases.relabelled.
Proof.
  unfold Cases.relabelled, Examples.corpus. cbn [map].
  repeat (apply Forall2_cons; [repeat split|]). apply Forall2_nil.
Qed.

Lemma dropped_columns_ignored_witness :
  exists nb',
    Train.run Cases.relabelled = Ok nb' /\ X nb' = X Examples.fitted.
Proof.
  destruct (proj1 (dropped_columns_ignored Examples.corpus Cases.relabelled
                     Examples.fitted run_fitted relabelled_same))
    as (nb' & Hrun & HX & _).
  exists nb'. split; [exact Hrun | exact HX].
Defined.

(** *** The properties at concrete records *)

Lemma corpus_second :
  nth_error Examples.corpus 1
  = Some (Examples.flat "2018-11" "ANG MO KIO" "3 ROOM" "10 TO 12" "Improved"
                        "61 years 06 months" 67 250000 NaN).
Proof. reflexivity. Qed.

Lemma feature_row_of_record_witness :
  cell_at (X Examples.fitted) "floor_area_sqm" 1 = Some (Flt (inject_Z 67)) /\
  cell_at (X Examples.fitted) "x0_YISHUN" 1 = Some (Int 0) /\
  nth_error (y Examples.fitted) 1 = Some (Flt (inject_Z 250000)).
Proof.
  destruct (feature_row_of_record Examples.corpus Examples.fitted 1 _
              run_fitted corpus_second)
    as (d & yr & mo & z & _ & _ & _ & Harea & _ & _ & _ & _ & _ & Htown & _ & _ & Hy).
  split; [exact Harea|]. split; [|exact Hy].
  apply (Htown "YISHUN"). vm_compute. tauto.
Defined.

Lemma training_schema_witness :
  Pd.columns (X Examples.fitted)
  = ["floor_area_sqm"; "sale_year"; "sale_month"; "years_remaining";
     "months_remaining"; "storey"; "x0_ANG MO KIO"; "x0_YISHUN"; "x1_3 ROOM";
     "x1_4 ROOM"; "x2_Improved"; "x2_Model A"] /\
  List.length (y Examples.fitted) = 4%nat.
Proof.
  pose proof (training_schema Examples.corpus Examples.fitted run_fitted) as H.
  split; [exact (proj1 (proj2 H)) | exact (proj2 (proj2 (proj2 (proj2 H))))].
Defined.

Lemma swapped_perm : Permutation Examples.corpus Cases.swapped.
Proof. apply perm_swap. Qed.

Lemma row_order_irrelevant_witness :
  exists nb',
    Train.run Cases.swapped = Ok nb' /\ ohe nb' = ohe Examples.fitted /\
    X_train_columns nb' = X_train_columns Examples.fitted.
Proof.
  destruct (row_order_irrelevant Examples.corpus Cases.swapped Examples.fitted
              swapped_perm run_fitted)
    as (nb' & Hrun & _ & Hohe & _ & HX).
  exists nb'. split; [exact Hrun|]. split; [exact Hohe | exact HX].
Defined.

Lemma model_input_priced :
  Predict.model_input Examples.fitted Examples.myflat = Ok Cases.priced.
Proof. vm_compute. reflexivity. Qed.

Lemma priced_row_values_witness :
  Pd.columns Cases.priced = X_train_columns Examples.fitted /\
  Pd.getcol Cases.priced "x0_YISHUN" = Ok [Int 1] /\
  Pd.getcol Cases.priced "x2_Model A" = Ok [Int 0].
Proof.
  destruct (priced_row_values Examples.corpus Examples.fitted Examples.myflat
              Cases.priced run_fitted model_input_priced)
    as (yy & mm & z & yr & mo & _ & _ & _ & _ & Hcols & _ & _ & _ & _ & _ & _
        & Htown & _ & Hmodel).
  split; [exact Hcols|]. split.
  - apply (Htown "YISHUN"). vm_compute. tauto.
  - apply (Hmodel "Model A"). vm_compute. tauto.
Defined.

Lemma corpus_first :
  nth_error Examples.corpus 0
  = Some (Examples.flat "2017-01" "YISHUN" "4 ROOM" "01 TO 03" "Model A"
                        "70 years 04 months" 93 350000 (Str "406")).
Proof. reflexivity. Qed.

Lemma model_input_first :
  exists out,
    Predict.model_input Examples.fitted
      (Examples.flat "2017-01" "YISHUN" "4 ROOM" "01 TO 03" "Model A"
                     "70 years 04 months" 93 350000 (Str "406")) = Ok out.
Proof. eexists. vm_compute. reflexivity. Qed.

Lemma corpus_dated :
  Forall (fun r' => Datetime.to_datetime (month r') <> Ok None) Examples.corpus.
Proof.
  repeat (apply Forall_cons; [intros H; vm_compute in H; discriminate H|]).
  apply Forall_nil.
Qed.

Lemma training_record_gets_its_own_row_witness :
  exists out,
    Predict.model_input Examples.fitted
      (Examples.flat "2017-01" "YISHUN" "4 ROOM" "01 TO 03" "Model A"
                     "70 years 04 months" 93 350000 (Str "406")) = Ok out /\
    Pd.columns out = X_train_columns Examples.fitted.
Proof.
  destruct model_input_first as [out Hout]. exists out. split; [exact Hout|].
  refine (proj1 (training_record_gets_its_own_row Examples.corpus Examples.fitted
                   0 _ out run_fitted corpus_first corpus_dated _ Hout)).
  exists 2, 0, 1, 7, 0, 1. unfold is_digit.
  repeat (split; [lia|]). reflexivity.
Defined.

Lemma month_lambdas_errors_witness :
  (Cell.sale_year (Int 201703) = Raise AttributeError /\
   Cell.sale_month (Int 201703) = Raise AttributeError) /\
  (Cell.sale_year (Str "201703") = Py.int "201703" /\
   Cell.sale_month (Str "201703") = Py.int "201703").
Proof.
  split.
  - exact (proj1 (proj2 (proj2 month_lambdas_errors)) (Int 201703) eq_refl).
  - exact (proj2 (proj2 (proj2 month_lambdas_errors)) "201703" eq_refl).
Defined.

Lemma run_undated : Train.run Cases.undated = Ok Cases.undated_nb.
Proof. vm_compute. reflexivity. Qed.

Lemma undated_shown : In ("sale_year", 1%nat) (isna_shown Cases.undated_nb).
Proof. vm_compute. tauto. Qed.

Lemma encoding_leaves_no_missing_cell_witness :
  In ("sale_year", 1%nat) (isna_shown Cases.undated_nb) /\
  1%nat = List.length (filter is_nat_text (map month Cases.undated)).
Proof.
  split; [exact undated_shown|].
  exact (proj2 (encoding_leaves_no_missing_cell Cases.undated Cases.undated_nb
                  "sale_year" 1%nat run_undated undated_shown) eq_refl).
Defined.

(** X12. A lease written [<N> years <M> months], with [N] and [M] two
    non-empty digit strings and single spaces between the four words, is read
    by the two lease lambdas as the pair of the numbers [N] and [M], leading
    zeros included. *)
Theorem lease_full_form_read ys ms :
  ys <> [] -> ms <> [] -> Forall is_digit ys -> Forall is_digit ms ->
  Parser.years_remaining (numeral ys ++ " years " ++ numeral ms ++ " months")
  = Ok (number ys) /\
  Parser.months_remaining (numeral ys ++ " years " ++ numeral ms ++ " months")
  = Ok (number ms).
Proof.
  intros Hy Hm Dy Dm.
  pose proof (lease_years_months ys ms Hy Hm Dy Dm) as H.
  unfold Parser.remaining_lease in H. bind_inv H.
  split; congruence.
Qed.

Lemma lease_full_form_read_witness :
  Parser.years_remaining "61 years 04 months" = Ok 61 /\
  Parser.months_remaining "61 years 04 months" = Ok 4.
Proof.
  apply (lease_full_form_read [6; 1] [0; 4]).
  - discriminate.
  - discriminate.
  - repeat constructor; unfold is_digit; lia.
  - repeat constructor; unfold is_digit; lia.
Defined.
